(** * Temperature dashboard: rolling statistics, 2-sigma anomaly detection,
      seasonal baseline and live-reading classification ([app.py])

    The development embeds the computational functions of [app.py]
    ([calculate_moving_average], [calculate_anomalies],
    [analyze_data_parallel], [analyze_data_sequential] and the statistics
    and live-reading block of [main]) together with the part of the pandas
    semantics they rely on (fixed-window [rolling] with the default
    [min_periods = window], [groupby], [agg], [round], boolean-mask
    selection, [.loc]).

    Numbers.  A float64 cell is modelled as [option R]: [None] is NaN (the
    pandas marker of a missing value), [Some x] a finite value, and the
    arithmetic on finite values is exact real arithmetic.  Rounding error
    of binary floating point and the infinities are outside the model; a
    division by zero yields [None].  Every comparison with NaN is false, as
    in IEEE 754.

    Library.  The application pins no pandas release; the operations follow
    pandas 1.3 to 2.x: [rolling] refuses a negative window and accepts
    zero, [groupby.apply] hands each group to the function with its
    grouping column, and on a frame without groups it returns a frame
    without rows that keeps the columns.

    Objects.  [calculate_anomalies] is embedded twice: as a function on
    values (module [App]) and as a computation on a heap of frame, block,
    series and mask objects (module [Heap]), which is where copies and
    in-place assignments can be told apart.

    Processes.  The process pool is a list of result slots that the
    workers fill in an arbitrary order of completion and that the caller
    reads in the order of submission. *)

From Stdlib Require Import Reals Lra Lia String ZArith Bool List Permutation.
Import ListNotations.

Set Implicit Arguments.

(* ================================================================== *)
(** ** Python results: a value or a raised exception *)

Module Py.

(** A dictionary or index key, as carried by a [KeyError]. *)
Inductive key : Type :=
| KStr (s : string)
| KInt (z : Z).

Inductive exn : Type :=
| ValueError (msg : string)
| KeyError (k : key).

(** [KeyError] is a subclass of [LookupError]; both exception classes
    are subclasses of [Exception]. *)
Definition is_LookupError (e : exn) : bool :=
  match e with KeyError _ => true | ValueError _ => false end.

Definition is_Exception (e : exn) : bool := true.

Inductive result (A : Type) : Type :=
| Ok (a : A)
| Raise (e : exn).
Arguments Ok {A} a.
Arguments Raise {A} e.

Definition bind {A B} (m : result A) (k : A -> result B) : result B :=
  match m with Ok a => k a | Raise e => Raise e end.

Fixpoint mapM {A B} (f : A -> result B) (l : list A) : result (list B) :=
  match l with
  | [] => Ok []
  | x :: rest =>
      bind (f x) (fun y => bind (mapM f rest) (fun ys => Ok (y :: ys)))
  end.

End Py.

Import Py.

Declare Scope py_scope.
Delimit Scope py_scope with py.
Notation "x <- m ;; k" := (Py.bind m (fun x => k))
  (at level 61, m at next level, right associativity) : py_scope.
Notation "' p <- m ;; k" := (Py.bind m (fun p => k))
  (at level 61, p pattern, m at next level, right associativity) : py_scope.
Open Scope py_scope.

(* ================================================================== *)
(** ** float64 cells *)

Module F64.
Local Open Scope R_scope.

Definition float64 : Type := option R.

Definition NaN : float64 := None.

Definition Rltb (x y : R) : bool := if Rlt_dec x y then true else false.

Definition lift2 (op : R -> R -> R) (a b : float64) : float64 :=
  match a, b with
  | Some x, Some y => Some (op x y)
  | _, _ => None
  end.

Definition add : float64 -> float64 -> float64 := lift2 Rplus.
Definition sub : float64 -> float64 -> float64 := lift2 Rminus.
Definition mul : float64 -> float64 -> float64 := lift2 Rmult.

Definition Req_b (x y : R) : bool := if Req_dec_T x y then true else false.

Definition div (a b : float64) : float64 :=
  match a, b with
  | Some x, Some y => if Req_b y 0 then None else Some (x / y)
  | _, _ => None
  end.

(** [a > b] and [a < b]; false as soon as one side is NaN. *)
Definition gt (a b : float64) : bool :=
  match a, b with
  | Some x, Some y => Rltb y x
  | _, _ => false
  end.

Definition lt (a b : float64) : bool :=
  match a, b with
  | Some x, Some y => Rltb x y
  | _, _ => false
  end.

(** Round half to even, the rounding of [numpy.rint]. *)
Definition rint (x : R) : Z :=
  let n := Int_part x in
  let f := x - IZR n in
  if Rlt_dec f (1 / 2) then n
  else if Rlt_dec (1 / 2) f then (n + 1)%Z
  else if Z.even n then n else (n + 1)%Z.

(** [numpy.round(x, decimals)]: scale, [rint], scale back. *)
Definition round (decimals : nat) (a : float64) : float64 :=
  match a with
  | Some x => Some (IZR (rint (x * 10 ^ decimals)) / 10 ^ decimals)
  | None => None
  end.

End F64.

Import F64.

(* ================================================================== *)
(** ** The pandas operations used by the application *)

Module Pandas.
Local Open Scope R_scope.

Definition Series : Type := list float64.

Definition Rsum (l : list R) : R := fold_right Rplus 0 l.

(** The non-missing observations of a window. *)
Fixpoint dropna (l : list float64) : list R :=
  match l with
  | [] => []
  | Some x :: rest => x :: dropna rest
  | None :: rest => dropna rest
  end.

Definition slice {A} (s : list A) (lo hi : nat) : list A :=
  firstn (hi - lo) (skipn lo s).

(** *** Fixed-size rolling windows *)

(** A [Rolling] object: the series it looks at and the validated window.
    [min_periods] is left to its default, the window size. *)
Record Rolling : Type := mkRolling {
  obj : Series;
  window : nat;
}.

(** [Series.rolling(window=w)]: pandas validates the window when the
    object is built and refuses only negative integers ("window must be
    an integer 0 or greater"). *)
Definition rolling (s : Series) (w : Z) : result Rolling :=
  if (w <? 0)%Z
  then Raise (ValueError "window must be an integer 0 or greater")
  else Ok (mkRolling s (Z.to_nat w)).

(** The fixed window indexer: the window that ends at position [i] is
    the half-open range [[max (i + 1 - w) 0, i + 1)]. *)
Definition window_bounds (n w : nat) : list (nat * nat) :=
  map (fun i => ((i + 1 - w)%nat, (i + 1)%nat)) (seq 0 n).

(** Mean of a window: defined when at least [minp] observations are
    present and the window is not empty. *)
Definition roll_mean (minp : nat) (obs : list R) : float64 :=
  let nobs := length obs in
  if ((minp <=? nobs) && (0 <? nobs))%nat
  then Some (Rsum obs / INR nobs)
  else None.

(** Variance of a window with [ddof] delta degrees of freedom: the sum
    of squared deviations from the window mean over [nobs - ddof]. *)
Definition roll_var (minp ddof : nat) (obs : list R) : float64 :=
  let nobs := length obs in
  if ((Nat.max minp 1 <=? nobs) && (ddof <? nobs))%nat
  then
    if (nobs =? 1)%nat then Some 0
    else
      let m := Rsum obs / INR nobs in
      Some (Rsum (map (fun x => (x - m) * (x - m)) obs) / INR (nobs - ddof))
  else None.

(** Square root that maps a negative argument to zero. *)
Definition zsqrt (a : float64) : float64 :=
  match a with
  | Some v => if Rltb v 0 then Some 0 else Some (sqrt v)
  | None => None
  end.

Definition apply_windows (agg : list R -> float64) (r : Rolling) : Series :=
  map (fun b => agg (dropna (slice (obj r) (fst b) (snd b))))
      (window_bounds (length (obj r)) (window r)).

(** [Rolling.mean()] *)
Definition mean (r : Rolling) : Series :=
  apply_windows (roll_mean (window r)) r.

(** [Rolling.std()], with the default [ddof = 1]. *)
Definition std (r : Rolling) : Series :=
  map zsqrt (apply_windows (roll_var (window r) 1) r).

(** *** Element-wise arithmetic and comparisons on aligned series *)

Fixpoint zip_with {A B C} (f : A -> B -> C) (a : list A) (b : list B)
  : list C :=
  match a, b with
  | x :: a', y :: b' => f x y :: zip_with f a' b'
  | _, _ => []
  end.

Definition series_add : Series -> Series -> Series := zip_with F64.add.
Definition series_sub : Series -> Series -> Series := zip_with F64.sub.
Definition scalar_mul (k : R) (s : Series) : Series :=
  map (F64.mul (Some k)) s.
Definition series_gt : Series -> Series -> list bool := zip_with F64.gt.
Definition series_lt : Series -> Series -> list bool := zip_with F64.lt.
Definition mask_or : list bool -> list bool -> list bool := zip_with orb.

(** [frame[mask]]: the rows whose mask entry is true, in order. *)
Fixpoint getitem_mask {A} (rows : list A) (mask : list bool) : list A :=
  match rows, mask with
  | r :: rows', b :: mask' =>
      if b then r :: getitem_mask rows' mask' else getitem_mask rows' mask'
  | _, _ => []
  end.

(** *** Group-by *)

Fixpoint insert_sorted (k : string) (l : list string) : list string :=
  match l with
  | [] => [k]
  | x :: rest =>
      if String.leb k x then k :: l else x :: insert_sorted k rest
  end.

Definition sort_keys (l : list string) : list string :=
  fold_right insert_sorted [] l.

(** The group keys: the distinct values of the key column, sorted. *)
Definition group_keys (ks : list string) : list string :=
  sort_keys (nodup string_dec ks).

(** [frame.groupby(key)]: for each key, the rows that carry it, in the
    order of the frame. *)
Definition groupby {A} (key : A -> string) (rows : list A)
  : list (string * list A) :=
  map (fun k => (k, filter (fun r => String.eqb (key r) k) rows))
      (group_keys (map key rows)).

(** *** Aggregations of a group (missing values are skipped) *)

Definition agg_mean (col : Series) : float64 :=
  let obs := dropna col in
  if (0 <? length obs)%nat then Some (Rsum obs / INR (length obs)) else None.

Definition agg_std (col : Series) : float64 :=
  let obs := dropna col in
  let n := length obs in
  if (1 <? n)%nat
  then
    let m := Rsum obs / INR n in
    Some (sqrt (Rsum (map (fun x => (x - m) * (x - m)) obs) / INR (n - 1)))
  else None.

Definition agg_min (col : Series) : float64 :=
  match dropna col with
  | [] => None
  | x :: rest => Some (fold_left Rmin rest x)
  end.

Definition agg_max (col : Series) : float64 :=
  match dropna col with
  | [] => None
  | x :: rest => Some (fold_left Rmax rest x)
  end.

(** [table.loc[k]] on a table indexed by strings. *)
Fixpoint loc {A} (table : list (string * A)) (k : string) : result A :=
  match table with
  | [] => Raise (KeyError (KStr k))
  | (k', v) :: rest => if String.eqb k' k then Ok v else loc rest k
  end.

End Pandas.

Import Pandas.

(** In-place update of one position of a list; positions past the end
    are not created. *)
Fixpoint set_nth {A} (n : nat) (x : A) (l : list A) : list A :=
  match l, n with
  | [], _ => []
  | _ :: rest, O => x :: rest
  | y :: rest, S n' => y :: set_nth n' x rest
  end.

(* ================================================================== *)
(** ** A process pool whose workers finish in any order *)

Module Executor.

(** A worker finishes task [k]: its result goes to slot [k]. *)
Definition finish {A B} (f : A -> B) (tasks : list A)
           (slots : list (option B)) (k : nat) : list (option B) :=
  match nth_error tasks k with
  | Some t => set_nth k (Some (f t)) slots
  | None => slots
  end.

(** The pool after the workers have finished the tasks named by
    [sched], in that order. *)
Definition run {A B} (f : A -> B) (tasks : list A) (sched : list nat)
  : list (option B) :=
  fold_left (finish f tasks) sched (repeat None (length tasks)).

(** The result iterator hands the slots out in submission order; it
    never gets past a slot that no worker fills. *)
Fixpoint collect {B} (slots : list (option B)) : option (list B) :=
  match slots with
  | [] => Some []
  | None :: _ => None
  | Some b :: rest =>
      match collect rest with
      | Some bs => Some (b :: bs)
      | None => None
      end
  end.

(** [executor.map(f, tasks)] under the completion order [sched]. *)
Definition map {A B} (f : A -> B) (tasks : list A) (sched : list nat)
  : option (list B) :=
  collect (run f tasks sched).

End Executor.

(* ================================================================== *)
(** ** The functions of [app.py] *)

Module App.
Local Open Scope R_scope.

(** A row of the uploaded table, with its index label. *)
Record Row : Type := mkRow {
  label : Z;
  city : string;
  timestamp : Z;
  temperature : float64;
  season : string;
}.

Definition DataFrame : Type := list Row.

Definition default_window : Z := 30.

(** [DataFrame.copy()] seen as a value. *)
Definition copy (d : DataFrame) : DataFrame := d.

Definition calculate_moving_average (data : DataFrame) (window : Z)
  : result Series :=
  r <- rolling (List.map temperature data) window ;;
  Ok (mean r).

(** [(anomalies, rolling_mean, upper_bound, lower_bound)] *)
Definition AnomalyResult : Type :=
  (DataFrame * Series * Series * Series)%type.

Definition calculate_anomalies (data : DataFrame) (window : Z)
  : result AnomalyResult :=
  rolling_mean <- calculate_moving_average data window ;;
  r <- rolling (List.map temperature data) window ;;
  let rolling_std := std r in
  let upper_bound := series_add rolling_mean (scalar_mul 2 rolling_std) in
  let lower_bound := series_sub rolling_mean (scalar_mul 2 rolling_std) in
  let anomalies :=
    copy (getitem_mask data
            (mask_or (series_gt (List.map temperature data) upper_bound)
                     (series_lt (List.map temperature data) lower_bound))) in
  Ok (anomalies, rolling_mean, upper_bound, lower_bound).

(** *** Analysis of all cities *)

(** A Python dictionary with string keys, in insertion order. *)
Definition Dict (V : Type) : Type := list (string * V).

(** A value of the dictionaries the two analyses return: the tuple of
    one city, or the empty dictionary that [DataFrame.to_dict()] makes
    of a column of a frame without rows. *)
Inductive dict_value : Type :=
| Analysis (r : AnomalyResult)
| EmptyColumn.

Definition frame_columns : list string :=
  [ "city"; "timestamp"; "temperature"; "season" ]%string.

(** [data.groupby('city').apply(calculate_anomalies).to_dict()].  With
    at least one group, [apply] gathers the tuples in a series indexed
    by city, and [to_dict] maps each city to its tuple.  With no group
    the function is never called: [apply] returns a frame without rows
    that keeps the columns of [data], and [to_dict] maps each column
    name to an empty dictionary (pandas 1.3 to 2.x). *)
Definition analyze_data_sequential (data : DataFrame)
  : result (Dict dict_value) :=
  match groupby city data with
  | [] => Ok (List.map (fun c => (c, EmptyColumn)) frame_columns)
  | groups =>
      mapM (fun g => res <- calculate_anomalies (snd g) default_window ;;
                     Ok (fst g, Analysis res))
           groups
  end.

(** The dictionary is built from the group keys zipped with the results
    of the pool; a result that is an exception is raised again when the
    iterator reaches it.  [None]: the iterator waits for a task that no
    worker finishes. *)
Definition analyze_data_parallel (data : DataFrame) (sched : list nat)
  : option (result (Dict dict_value)) :=
  let groups := groupby city data in
  match Executor.map (fun g => calculate_anomalies g default_window)
                     (List.map snd groups) sched with
  | None => None
  | Some results =>
      Some (mapM (fun nr => res <- snd nr ;; Ok (fst nr, Analysis res))
                 (combine (List.map fst groups) results))
  end.

(** *** Seasonal statistics *)

Record SeasonStats : Type := mkStats {
  st_mean : float64;
  st_std : float64;
  st_min : float64;
  st_max : float64;
}.

Definition agg_all (col : Series) : SeasonStats :=
  mkStats (agg_mean col) (agg_std col) (agg_min col) (agg_max col).

Definition round_stats (decimals : nat) (s : SeasonStats) : SeasonStats :=
  mkStats (F64.round decimals (st_mean s)) (F64.round decimals (st_std s))
          (F64.round decimals (st_min s)) (F64.round decimals (st_max s)).

(** [stats]: the table shown to the user,
    [groupby('season')['temperature'].agg([mean, std, min, max]).round(2)]. *)
Definition stats (city_data : DataFrame) : list (string * SeasonStats) :=
  List.map (fun g => (fst g, round_stats 2 (agg_all (List.map temperature (snd g)))))
           (groupby season city_data).

(** [seasonal_stats]: the table behind the seasonal profile chart,
    [groupby('season')['temperature'].agg([mean, std])], not rounded
    (the reordering of its rows for the chart is left out). *)
Definition seasonal_stats (city_data : DataFrame)
  : list (string * (float64 * float64)) :=
  List.map (fun g => (fst g, (agg_mean (List.map temperature (snd g)),
                              agg_std (List.map temperature (snd g)))))
           (groupby season city_data).

(** *** The live reading *)

Definition month_seasons : list (Z * string) :=
  [ (12, "winter"); (1, "winter"); (2, "winter");
    (3, "spring"); (4, "spring"); (5, "spring");
    (6, "summer"); (7, "summer"); (8, "summer");
    (9, "autumn"); (10, "autumn"); (11, "autumn") ]%Z%string.

Fixpoint dict_getitem (d : list (Z * string)) (k : Z) : result string :=
  match d with
  | [] => Raise (KeyError (KInt k))
  | (k', v) :: rest => if (k' =? k)%Z then Ok v else dict_getitem rest k
  end.

Definition current_season (current_month : Z) : result string :=
  dict_getitem month_seasons current_month.

(** The 2-sigma test of a reading against a mean and a standard
    deviation. *)
Definition outside_2sigma (t : float64) (m s : float64) : bool :=
  F64.gt t (F64.add m (F64.mul (Some 2) s))
  || F64.lt t (F64.sub m (F64.mul (Some 2) s)).

(** Lines 291-293: the row of [stats] for the season, then the test. *)
Definition classify_reading (table : list (string * SeasonStats))
           (current_temp : R) (season_name : string) : result bool :=
  season_stats <- loc table season_name ;;
  Ok (outside_2sigma (Some current_temp)
                     (st_mean season_stats) (st_std season_stats)).

(** The decoded answer of the weather service: the ["cod"] field and
    the temperature under ["main"], when present. *)
Record Weather : Type := mkWeather {
  cod : option Z;
  main_temp : option R;
}.

(** ['cod' in weather_data and weather_data['cod'] == 401] *)
Definition cod_is_401 (w : Weather) : bool :=
  match cod w with
  | Some c => (c =? 401)%Z
  | None => false
  end.

(** What the page shows for the live reading. *)
Inductive ui : Type :=
| ShowNothing
| ShowInvalidKey
| ShowReading (current_temp : R) (is_anomaly : bool)
| ShowError (e : exn).

(** The body of the [try] block, after the request. *)
Definition live_block (table : list (string * SeasonStats))
           (weather_data : option Weather) (current_month : Z) : result ui :=
  match weather_data with
  | None => Ok ShowNothing
  | Some w =>
      if cod_is_401 w then Ok ShowInvalidKey
      else
        match main_temp w with
        | Some current_temp =>
            s <- current_season current_month ;;
            is_anomaly <- classify_reading table current_temp s ;;
            Ok (ShowReading current_temp is_anomaly)
        | None => Ok ShowNothing
        end
  end.

(** [try: ... except Exception as e: st.error(...)] *)
Definition live_section (table : list (string * SeasonStats))
           (weather_data : option Weather) (current_month : Z) : result ui :=
  match live_block table weather_data current_month with
  | Ok u => Ok u
  | Raise e => if is_Exception e then Ok (ShowError e) else Raise e
  end.

End App.

Import App.

(* ================================================================== *)
(** ** Frames and series as objects of a heap

    [calculate_anomalies] once more, this time on references: a frame
    object points to the block that stores its cells, every pandas
    operation of the function allocates its result, and an assignment into
    a frame overwrites the block of that frame in place. *)

Module Heap.

Definition addr : Type := nat.

Inductive object : Type :=
| Block (rows : DataFrame)
| Frame (block : addr)
| SeriesObj (vals : Series)
| MaskObj (bits : list bool).

Definition heap : Type := list object.

Definition read (h : heap) (a : addr) : option object := nth_error h a.


(** Heap computations; [None] is a reference to an object of the wrong
    kind, which a run of the program never produces. *)
Definition ST (A : Type) : Type := heap -> option (A * heap).

Definition ret {A} (a : A) : ST A := fun h => Some (a, h).

Definition bind {A B} (m : ST A) (k : A -> ST B) : ST B :=
  fun h => match m h with
           | Some (a, h') => k a h'
           | None => None
           end.

Declare Scope heap_scope.
Delimit Scope heap_scope with heap.
Notation "x <~ m ;; k" := (bind m (fun x => k))
  (at level 61, m at next level, right associativity) : heap_scope.
Local Open Scope heap_scope.

Definition new (o : object) : ST addr :=
  fun h => Some (length h, h ++ [o]).

Definition frame_rows (f : addr) : ST DataFrame :=
  fun h => match read h f with
           | Some (Frame b) =>
               match read h b with
               | Some (Block rows) => Some (rows, h)
               | _ => None
               end
           | _ => None
           end.

Definition series_vals (s : addr) : ST Series :=
  fun h => match read h s with
           | Some (SeriesObj v) => Some (v, h)
           | _ => None
           end.

Definition mask_bits (m : addr) : ST (list bool) :=
  fun h => match read h m with
           | Some (MaskObj b) => Some (b, h)
           | _ => None
           end.

Definition new_frame (rows : DataFrame) : ST addr :=
  b <~ new (Block rows) ;; new (Frame b).

(** [data['temperature']] *)
Definition getitem_temperature (f : addr) : ST addr :=
  rows <~ frame_rows f ;; new (SeriesObj (List.map temperature rows)).

Definition series_map (g : Series -> Series) (s : addr) : ST addr :=
  v <~ series_vals s ;; new (SeriesObj (g v)).

Definition series_binop (g : Series -> Series -> Series) (a b : addr)
  : ST addr :=
  x <~ series_vals a ;; y <~ series_vals b ;; new (SeriesObj (g x y)).

Definition series_cmp (g : Series -> Series -> list bool) (a b : addr)
  : ST addr :=
  x <~ series_vals a ;; y <~ series_vals b ;; new (MaskObj (g x y)).

Definition mask_binop (g : list bool -> list bool -> list bool)
           (a b : addr) : ST addr :=
  x <~ mask_bits a ;; y <~ mask_bits b ;; new (MaskObj (g x y)).

(** [frame[mask]]: a new frame over a new block. *)
Definition frame_getitem_mask (f m : addr) : ST addr :=
  rows <~ frame_rows f ;; bits <~ mask_bits m ;;
  new_frame (getitem_mask rows bits).

(** [frame.copy()]: a new frame over a new block with the same cells. *)
Definition frame_copy (f : addr) : ST addr :=
  rows <~ frame_rows f ;; new_frame (copy rows).


(** [series.rolling(window)]: the validation of {!Pandas.rolling}. *)
Definition rolling_ref (s : addr) (w : Z) : result (addr * nat) :=
  if (w <? 0)%Z
  then Raise (ValueError "window must be an integer 0 or greater")
  else Ok (s, Z.to_nat w).

Definition calculate_moving_average (data : addr) (window : Z)
  : ST (result addr) :=
  col <~ getitem_temperature data ;;
  match rolling_ref col window with
  | Raise e => ret (Raise e)
  | Ok (c, w) =>
      m <~ series_map (fun v => mean (mkRolling v w)) c ;; ret (Ok m)
  end.

Definition calculate_anomalies (data : addr) (window : Z)
  : ST (result (addr * addr * addr * addr)) :=
  rm <~ calculate_moving_average data window ;;
  match rm with
  | Raise e => ret (Raise e)
  | Ok rolling_mean =>
      col <~ getitem_temperature data ;;
      match rolling_ref col window with
      | Raise e => ret (Raise e)
      | Ok (c, w) =>
          rolling_std <~ series_map (fun v => std (mkRolling v w)) c ;;
          twice_u <~ series_map (scalar_mul 2) rolling_std ;;
          upper_bound <~ series_binop series_add rolling_mean twice_u ;;
          twice_l <~ series_map (scalar_mul 2) rolling_std ;;
          lower_bound <~ series_binop series_sub rolling_mean twice_l ;;
          col_u <~ getitem_temperature data ;;
          above <~ series_cmp series_gt col_u upper_bound ;;
          col_l <~ getitem_temperature data ;;
          below <~ series_cmp series_lt col_l lower_bound ;;
          mask <~ mask_binop mask_or above below ;;
          selected <~ frame_getitem_mask data mask ;;
          anomalies <~ frame_copy selected ;;
          ret (Ok (anomalies, rolling_mean, upper_bound, lower_bound))
      end
  end.

(** What the caller sees through the references a run returned. *)
Definition deref_result (out : result (addr * addr * addr * addr))
           (h : heap) : option (result AnomalyResult) :=
  match out with
  | Raise e => Some (Raise e)
  | Ok (anomalies, rolling_mean, upper_bound, lower_bound) =>
      match frame_rows anomalies h, series_vals rolling_mean h,
            series_vals upper_bound h, series_vals lower_bound h with
      | Some (a, _), Some (m, _), Some (u, _), Some (l, _) =>
          Some (Ok (a, m, u, l))
      | _, _, _, _ => None
      end
  end.

End Heap.

(* ================================================================== *)
(** ** The rolling statistics and the anomaly rule as the specification
       words them *)

Module Spec.
Local Open Scope R_scope.

(** Sum and arithmetic mean of a slice of cells; a missing cell makes
    the result missing. *)
Definition fsum (xs : list float64) : float64 :=
  fold_right F64.add (Some 0) xs.

Definition arithmetic_mean (xs : list float64) : float64 :=
  F64.div (fsum xs) (Some (INR (length xs))).

Definition fsqrt (a : float64) : float64 :=
  match a with Some v => Some (sqrt v) | None => None end.

(** Bessel-corrected sample standard deviation: divisor [n - 1]. *)
Definition sample_std (xs : list float64) : float64 :=
  let m := arithmetic_mean xs in
  fsqrt (F64.div
           (fsum (List.map (fun x => F64.mul (F64.sub x m) (F64.sub x m)) xs))
           (Some (INR (length xs) - 1))).

(** [S[i-W+1 .. i]], both ends included. *)
Definition trailing_slice (S : Series) (W i : nat) : list float64 :=
  firstn W (skipn (i + 1 - W) S).

Definition rolling_mean_at (S : Series) (W i : nat) : float64 :=
  if (i + 1 <? W)%nat then NaN else arithmetic_mean (trailing_slice S W i).

Definition rolling_std_at (S : Series) (W i : nat) : float64 :=
  if (i + 1 <? W)%nat then NaN else sample_std (trailing_slice S W i).


End Spec.

(* ================================================================== *)
(** ** Sample inputs *)

Module Samples.
Local Open Scope R_scope.

(** One daily observation. *)
Definition day (town : string) (s : string) (i : nat) (t : R) : Row :=
  mkRow (Z.of_nat i) town (Z.of_nat i) (Some t) s.

(** Three days, used with small windows. *)
Definition three_days : DataFrame :=
  [ day "Berlin" "winter" 0 1; day "Berlin" "winter" 1 2;
    day "Berlin" "winter" 2 3 ].

(** 35 daily points: 34 times 10 degrees, then 50 degrees at index 34. *)
Definition spike_series : DataFrame :=
  List.map (fun i => day "Berlin" "winter" i 10) (seq 0 34)
  ++ [ day "Berlin" "winter" 34 50 ].


(** Three cities with distinct series. *)
Definition three_cities : DataFrame :=
  [ day "Oslo" "winter" 0 1; day "Cairo" "winter" 1 30;
    day "Lima" "winter" 2 18; day "Oslo" "winter" 3 (-2);
    day "Cairo" "winter" 4 31; day "Lima" "winter" 5 19 ].

(** A winter of three days whose mean and deviation have a third
    decimal. *)
Definition winter_days : DataFrame :=
  [ day "Berlin" "winter" 0 10;
    day "Berlin" "winter" 1 (10126 / 1000);
    day "Berlin" "winter" 2 (10252 / 1000) ].

(** A heap that holds [three_days] as frame [1] over block [0], and
    another one that holds it as frame [2] over block [1]. *)
Definition small_heap : Heap.heap :=
  [ Heap.Block three_days; Heap.Frame 0%nat ].

Definition other_heap : Heap.heap :=
  [ Heap.MaskObj [true]; Heap.Block three_days; Heap.Frame 1%nat ].

Definition warm_answer : Weather := mkWeather (Some 200%Z) (Some 25).

End Samples.

Import Samples.

(* ================================================================== *)
(** ** The page of one city, and notions used to state properties *)

Module Page.
Local Open Scope R_scope.


(** Line 135: [data[data['city'] == selected_city]]. *)
Definition select_city (data : DataFrame) (selected_city : string)
  : DataFrame :=
  getitem_mask data
    (List.map (fun r => String.eqb (city r) selected_city) data).






(** Keys in ascending order, each strictly below the next. *)
Fixpoint ascending (l : list string) : Prop :=
  match l with
  | [] => True
  | x :: rest =>
      match rest with
      | [] => True
      | y :: _ => String.ltb x y = true /\ ascending rest
      end
  end.

End Page.

Import Page.

(** Inputs for the properties of the page. *)
Module PageSamples.
Local Open Scope R_scope.



(** One observation in each of the four seasons. *)
Definition four_seasons : DataFrame :=
  [ day "Berlin" "winter" 0 1; day "Berlin" "spring" 1 9;
    day "Berlin" "summer" 2 22; day "Berlin" "autumn" 3 11 ].

End PageSamples.

Import PageSamples.

(* ================================================================== *)
(** * Properties *)

(** ** Lists, sums and windows *)

Section ListFacts.
Context {A B : Type}.

Lemma nth_map_seq (f : nat -> B) (n i : nat) (d : B) :
  (i < n)%nat -> nth i (List.map f (seq 0 n)) d = f i.
Proof.
  intros Hi.
  rewrite (nth_indep _ d (f 0%nat)) by (rewrite length_map, length_seq; exact Hi).
  rewrite (map_nth f (seq 0 n) 0%nat i), seq_nth by exact Hi.
  reflexivity.
Qed.

Lemma zip_with_length {C} (f : A -> B -> C) (a : list A) (b : list B) :
  length a = length b -> length (zip_with f a b) = length a.
Proof.
  revert b; induction a as [|x a IH]; intros [|y b] H; simpl in *;
    try discriminate; auto.
Qed.

Lemma zip_with_nth {C} (f : A -> B -> C) (a : list A) (b : list B)
      (i : nat) (da : A) (db : B) (dc : C) :
  length a = length b -> (i < length a)%nat ->
  nth i (zip_with f a b) dc = f (nth i a da) (nth i b db).
Proof.
  revert b i; induction a as [|x a IH]; intros [|y b] i H Hi; simpl in *;
    try discriminate; try lia.
  destruct i as [|i]; [reflexivity|].
  apply IH; lia.
Qed.

End ListFacts.

Section WindowFacts.
Local Open Scope R_scope.

Lemma dropna_length_le (xs : list float64) :
  (length (dropna xs) <= length xs)%nat.
Proof.
  induction xs as [|[x|] xs IH]; simpl; lia.
Qed.

(** A slice without missing cells is its own list of observations. *)
Lemma dropna_full (xs : list float64) :
  length (dropna xs) = length xs -> xs = List.map Some (dropna xs).
Proof.
  induction xs as [|[x|] xs IH]; simpl; intros H.
  - reflexivity.
  - f_equal; apply IH; lia.
  - pose proof (dropna_length_le xs); lia.
Qed.

Lemma dropna_map_Some (l : list R) : dropna (List.map Some l) = l.
Proof. induction l; simpl; congruence. Qed.



Lemma Rsum_sq_nonneg (m : R) (l : list R) :
  0 <= Rsum (List.map (fun x => (x - m) * (x - m)) l).
Proof.
  induction l as [|x l IH]; simpl; [lra|].
  pose proof (Rle_0_sqr (x - m)) as Hs; unfold Rsqr in Hs; lra.
Qed.

Lemma INR_pos_neq (n : nat) : (0 < n)%nat -> INR n <> 0.
Proof. intros H; apply not_0_INR; lia. Qed.



Lemma Rltb_true (x y : R) : x < y -> F64.Rltb x y = true.
Proof. intros H; unfold F64.Rltb; destruct (Rlt_dec x y); tauto. Qed.

Lemma Rltb_false (x y : R) : ~ x < y -> F64.Rltb x y = false.
Proof. intros H; unfold F64.Rltb; destruct (Rlt_dec x y); tauto. Qed.

Lemma Rltb_iff (x y : R) : F64.Rltb x y = true <-> x < y.
Proof.
  unfold F64.Rltb; destruct (Rlt_dec x y); split; intros; try tauto;
    discriminate.
Qed.

(** The window of position [i], seen from the rolling object. *)
Lemma apply_windows_nth (agg : list R -> float64) (r : Rolling) (i : nat) :
  (i < length (obj r))%nat ->
  nth i (apply_windows agg r) NaN =
  agg (dropna (slice (obj r) (i + 1 - window r) (i + 1))).
Proof.
  intros Hi; unfold apply_windows, window_bounds.
  rewrite List.map_map. rewrite nth_map_seq by exact Hi. reflexivity.
Qed.

Lemma apply_windows_length (agg : list R -> float64) (r : Rolling) :
  length (apply_windows agg r) = length (obj r).
Proof.
  unfold apply_windows, window_bounds.
  rewrite !length_map, length_seq; reflexivity.
Qed.

Lemma mean_length (r : Rolling) : length (mean r) = length (obj r).
Proof. apply apply_windows_length. Qed.

Lemma std_length (r : Rolling) : length (std r) = length (obj r).
Proof. unfold std; rewrite length_map; apply apply_windows_length. Qed.

Lemma std_nth (r : Rolling) (i : nat) :
  (i < length (obj r))%nat ->
  nth i (std r) NaN =
  zsqrt (roll_var (window r) 1
           (dropna (slice (obj r) (i + 1 - window r) (i + 1)))).
Proof.
  intros Hi; unfold std.
  rewrite (nth_indep _ NaN (zsqrt NaN))
    by (rewrite length_map, apply_windows_length; exact Hi).
  rewrite (map_nth zsqrt), apply_windows_nth by exact Hi. reflexivity.
Qed.

(** Before the window is full the slice is too short. *)
Lemma slice_underfilled (S : Series) (w i : nat) :
  (i + 1 < w)%nat ->
  (length (dropna (slice S (i + 1 - w) (i + 1))) < w)%nat.
Proof.
  intros H. pose proof (dropna_length_le (slice S (i + 1 - w) (i + 1))) as L.
  unfold slice in *. rewrite length_firstn in L. lia.
Qed.



Lemma roll_mean_underfilled (w : nat) (obs : list R) :
  (length obs < w)%nat -> roll_mean w obs = None.
Proof.
  intros H; unfold roll_mean.
  replace ((w <=? length obs)%nat) with false
    by (symmetry; apply Nat.leb_gt; lia).
  reflexivity.
Qed.




End WindowFacts.

(** ** Rolling statistics *)

Section RollingStatistics.
Local Open Scope R_scope.

Lemma rolling_ok (S : Series) (W : Z) :
  (0 <= W)%Z -> rolling S W = Ok (mkRolling S (Z.to_nat W)).
Proof.
  intros H; unfold rolling.
  destruct (Z.ltb_spec W 0); [lia | reflexivity].
Qed.

Lemma rolling_negative (S : Series) (W : Z) :
  (W < 0)%Z ->
  rolling S W = Raise (ValueError "window must be an integer 0 or greater").
Proof.
  intros H; unfold rolling.
  destruct (Z.ltb_spec W 0); [reflexivity | lia].
Qed.

Lemma mean_underfilled (S : Series) (w i : nat) :
  (i < length S)%nat -> (i + 1 < w)%nat ->
  nth i (mean (mkRolling S w)) NaN = NaN.
Proof.
  intros Hi Hw. unfold mean. rewrite apply_windows_nth by exact Hi.
  apply roll_mean_underfilled. apply slice_underfilled; exact Hw.
Qed.




End RollingStatistics.


(** ** The 2-sigma rule *)

Section TwoSigma.
Local Open Scope R_scope.


Lemma outside_2sigma_missing (t m s : float64) :
  m = NaN \/ s = NaN -> outside_2sigma t m s = false.
Proof.
  intros [-> | ->]; unfold outside_2sigma;
    destruct t; try destruct m; try destruct s; reflexivity.
Qed.

Lemma scalar_mul_nth (k : R) (s : Series) (i : nat) :
  nth i (scalar_mul k s) NaN = F64.mul (Some k) (nth i s NaN).
Proof.
  unfold scalar_mul.
  change NaN with (F64.mul (Some k) NaN) at 1.
  apply map_nth.
Qed.

Lemma scalar_mul_length (k : R) (s : Series) :
  length (scalar_mul k s) = length s.
Proof. apply length_map. Qed.

Variables (temps means stds : Series).
Hypothesis Hmeans : length means = length temps.
Hypothesis Hstds : length stds = length temps.

Let upper := series_add means (scalar_mul 2 stds).
Let lower := series_sub means (scalar_mul 2 stds).
Let mask := mask_or (series_gt temps upper) (series_lt temps lower).

Lemma upper_length : length upper = length temps.
Proof.
  unfold upper, series_add.
  rewrite zip_with_length; rewrite ?scalar_mul_length; congruence.
Qed.

Lemma lower_length : length lower = length temps.
Proof.
  unfold lower, series_sub.
  rewrite zip_with_length; rewrite ?scalar_mul_length; congruence.
Qed.

Lemma upper_nth (i : nat) :
  (i < length temps)%nat ->
  nth i upper NaN =
  F64.add (nth i means NaN) (F64.mul (Some 2) (nth i stds NaN)).
Proof.
  intros Hi. unfold upper, series_add.
  rewrite (zip_with_nth F64.add means (scalar_mul 2 stds) (i := i) NaN NaN NaN)
    by (rewrite ?scalar_mul_length; congruence || lia).
  rewrite scalar_mul_nth. reflexivity.
Qed.

Lemma lower_nth (i : nat) :
  (i < length temps)%nat ->
  nth i lower NaN =
  F64.sub (nth i means NaN) (F64.mul (Some 2) (nth i stds NaN)).
Proof.
  intros Hi. unfold lower, series_sub.
  rewrite (zip_with_nth F64.sub means (scalar_mul 2 stds) (i := i) NaN NaN NaN)
    by (rewrite ?scalar_mul_length; congruence || lia).
  rewrite scalar_mul_nth. reflexivity.
Qed.

Lemma mask_length : length mask = length temps.
Proof.
  unfold mask, mask_or, series_gt, series_lt.
  rewrite !zip_with_length; rewrite ?zip_with_length;
    rewrite ?upper_length, ?lower_length; reflexivity.
Qed.

(** The mask entry of a position is the 2-sigma test of its cell. *)
Lemma mask_nth (i : nat) :
  (i < length temps)%nat ->
  nth i mask false =
  outside_2sigma (nth i temps NaN) (nth i means NaN) (nth i stds NaN).
Proof.
  intros Hi. unfold mask, mask_or, series_gt, series_lt.
  rewrite (zip_with_nth orb _ _ (i := i) false false false).
  - rewrite (zip_with_nth F64.gt temps upper (i := i) NaN NaN false)
      by (rewrite ?upper_length; congruence || lia).
    rewrite (zip_with_nth F64.lt temps lower (i := i) NaN NaN false)
      by (rewrite ?lower_length; congruence || lia).
    rewrite upper_nth, lower_nth by exact Hi. reflexivity.
  - rewrite !zip_with_length; rewrite ?upper_length, ?lower_length;
      reflexivity.
  - rewrite zip_with_length; rewrite ?upper_length; [exact Hi | reflexivity].
Qed.

End TwoSigma.

(** ** The anomaly detector *)

Section Detector.
Local Open Scope R_scope.

Variables (data : DataFrame) (W : Z).

Let temps := List.map temperature data.
Let r := mkRolling temps (Z.to_nat W).
Let upper := series_add (mean r) (scalar_mul 2 (std r)).
Let lower := series_sub (mean r) (scalar_mul 2 (std r)).
Let mask := mask_or (series_gt temps upper) (series_lt temps lower).

(** With a window that pandas accepts the detector returns, and these
    are its four results. *)
Lemma calculate_anomalies_ok :
  (0 <= W)%Z ->
  calculate_anomalies data W =
  Ok (getitem_mask data mask, mean r, upper, lower).
Proof.
  intros HW. unfold calculate_anomalies, calculate_moving_average.
  rewrite rolling_ok by exact HW. reflexivity.
Qed.

Lemma calculate_anomalies_negative :
  (W < 0)%Z ->
  calculate_anomalies data W =
  Raise (ValueError "window must be an integer 0 or greater").
Proof.
  intros HW. unfold calculate_anomalies, calculate_moving_average.
  rewrite rolling_negative by exact HW. reflexivity.
Qed.

End Detector.


(** ** Constant series *)

Section ConstantSeries.
Local Open Scope R_scope.

Lemma firstn_repeat_min {A} (x : A) (k n : nat) :
  firstn k (repeat x n) = repeat x (Nat.min k n).
Proof.
  revert n; induction k as [|k IH]; intros [|n]; simpl; try reflexivity.
  f_equal; apply IH.
Qed.

Lemma skipn_repeat_sub {A} (x : A) (k n : nat) :
  skipn k (repeat x n) = repeat x (n - k).
Proof.
  revert n; induction k as [|k IH]; intros [|n]; simpl; try reflexivity.
  apply IH.
Qed.

Lemma slice_repeat {A} (x : A) (n lo hi : nat) :
  slice (repeat x n) lo hi = repeat x (Nat.min (hi - lo) (n - lo)).
Proof.
  unfold slice. rewrite skipn_repeat_sub, firstn_repeat_min. reflexivity.
Qed.

Lemma dropna_repeat (c : R) (k : nat) :
  dropna (repeat (Some c) k) = repeat c k.
Proof. induction k; simpl; congruence. Qed.

Lemma Rsum_repeat (c : R) (k : nat) : Rsum (repeat c k) = INR k * c.
Proof.
  induction k as [|k IH].
  - simpl; lra.
  - rewrite S_INR. cbn [repeat Rsum fold_right].
    unfold Rsum in IH. rewrite IH. lra.
Qed.

Lemma Rsum_sq_repeat (c : R) (k : nat) :
  Rsum (List.map (fun x => (x - c) * (x - c)) (repeat c k)) = 0.
Proof.
  induction k as [|k IH].
  - reflexivity.
  - cbn [repeat List.map Rsum fold_right].
    unfold Rsum in IH. rewrite IH. lra.
Qed.

Lemma map_constant {A B} (f : A -> B) (l : list A) (y : B) :
  (forall x, In x l -> f x = y) -> List.map f l = repeat y (length l).
Proof.
  induction l as [|x l IH]; simpl; intros H; [reflexivity|].
  rewrite (H x) by (left; reflexivity).
  f_equal; apply IH; intros; apply H; right; assumption.
Qed.

(** The mean of a window of [k >= 1] copies of [c] is [c]. *)
Lemma roll_mean_repeat (w k : nat) (c : R) :
  roll_mean w (repeat c k) =
  if ((w <=? k) && (0 <? k))%nat then Some c else None.
Proof.
  unfold roll_mean. rewrite repeat_length.
  destruct ((w <=? k) && (0 <? k))%nat eqn:E; [|reflexivity].
  apply andb_true_iff in E as [_ Hk]. apply Nat.ltb_lt in Hk.
  rewrite Rsum_repeat. f_equal. field. apply INR_pos_neq; exact Hk.
Qed.

(** Its sample deviation is [0] from two copies on. *)
Lemma roll_std_repeat (w k : nat) (c : R) :
  zsqrt (roll_var w 1 (repeat c k)) =
  if ((Nat.max w 1 <=? k) && (1 <? k))%nat then Some 0 else None.
Proof.
  unfold roll_var. rewrite repeat_length.
  destruct ((Nat.max w 1 <=? k) && (1 <? k))%nat eqn:E; [|reflexivity].
  apply andb_true_iff in E as [_ Hk]. apply Nat.ltb_lt in Hk.
  replace ((k =? 1)%nat) with false by (symmetry; apply Nat.eqb_neq; lia).
  rewrite Rsum_repeat.
  replace (INR k * c / INR k) with c
    by (field; apply INR_pos_neq; lia).
  rewrite Rsum_sq_repeat. unfold zsqrt.
  replace (0 / INR (k - 1)) with 0 by (unfold Rdiv; ring).
  rewrite Rltb_false by lra. rewrite sqrt_0. reflexivity.
Qed.

Variables (c : R) (n w : nat).

Let r := mkRolling (repeat (Some c) n) w.

Lemma constant_window (i : nat) :
  (i < n)%nat ->
  dropna (slice (repeat (Some c) n) (i + 1 - w) (i + 1)) =
  repeat c (Nat.min w (i + 1)).
Proof.
  intros Hi. rewrite slice_repeat, dropna_repeat. f_equal. lia.
Qed.

Lemma constant_mean_nth (i : nat) :
  (i < n)%nat ->
  nth i (mean r) NaN =
  if ((w <=? i + 1) && (0 <? w))%nat then Some c else None.
Proof.
  intros Hi. unfold mean.
  rewrite apply_windows_nth by (cbn [r obj]; rewrite repeat_length; exact Hi).
  cbn [r obj window]. rewrite constant_window by exact Hi.
  rewrite roll_mean_repeat.
  destruct (Nat.leb_spec w (i + 1)), (Nat.ltb_spec 0 w);
    destruct (Nat.leb_spec w (Nat.min w (i + 1)));
    destruct (Nat.ltb_spec 0 (Nat.min w (i + 1)));
    cbn [andb]; try reflexivity; lia.
Qed.

Lemma constant_std_nth (i : nat) :
  (i < n)%nat ->
  nth i (std r) NaN =
  if ((w <=? i + 1) && (1 <? w))%nat then Some 0 else None.
Proof.
  intros Hi.
  rewrite std_nth by (cbn [r obj]; rewrite repeat_length; exact Hi).
  cbn [r obj window]. rewrite constant_window by exact Hi.
  rewrite roll_std_repeat.
  destruct (Nat.leb_spec w (i + 1)), (Nat.ltb_spec 1 w);
    destruct (Nat.leb_spec (Nat.max w 1) (Nat.min w (i + 1)));
    destruct (Nat.ltb_spec 1 (Nat.min w (i + 1)));
    cbn [andb]; try reflexivity; lia.
Qed.

End ConstantSeries.

Lemma getitem_mask_none {A} (rows : list A) (mask : list bool) :
  (forall i, (i < length rows)%nat -> nth i mask false = false) ->
  getitem_mask rows mask = [].
Proof.
  revert mask; induction rows as [|x rows IH]; intros [|b mask] H;
    simpl; try reflexivity.
  assert (Hb : b = false) by (apply (H 0%nat); simpl; lia).
  subst b. apply IH. intros i Hi. apply (H (S i)). simpl; lia.
Qed.


(** ** The detector on the heap *)

Unset Implicit Arguments.

Section HeapFacts.
Import Heap.

Lemma read_old (h ext : heap) (a : addr) (o : object) :
  read h a = Some o -> read (h ++ ext) a = Some o.
Proof.
  unfold read; intros H.
  rewrite nth_error_app1; [exact H|].
  apply nth_error_Some; congruence.
Qed.

Lemma read_new (h ext : heap) (j : nat) :
  read (h ++ ext) (length h + j) = nth_error ext j.
Proof.
  unfold read. rewrite nth_error_app2 by lia.
  f_equal; lia.
Qed.

Lemma new_ext (h ext : heap) (o : object) :
  new o (h ++ ext) = Some ((length h + length ext)%nat, h ++ (ext ++ [o])).
Proof.
  unfold new. rewrite length_app, app_assoc. reflexivity.
Qed.

Lemma frame_rows_old (h ext : heap) (f : addr) (rows : DataFrame) :
  frame_rows f h = Some (rows, h) ->
  frame_rows f (h ++ ext) = Some (rows, h ++ ext).
Proof.
  unfold frame_rows. intros H.
  destruct (read h f) as [[ | b | | ]|] eqn:Ef; try discriminate.
  destruct (read h b) as [[ rs | | | ]|] eqn:Eb; try discriminate.
  rewrite (read_old h ext _ _ Ef), (read_old h ext _ _ Eb).
  inversion H; subst; reflexivity.
Qed.

Lemma frame_rows_new (h ext : heap) (j k : nat) (rows : DataFrame) :
  nth_error ext j = Some (Frame (length h + k)) ->
  nth_error ext k = Some (Block rows) ->
  frame_rows (length h + j) (h ++ ext) = Some (rows, h ++ ext).
Proof.
  unfold frame_rows. intros Hj Hk.
  rewrite read_new, Hj, read_new, Hk. reflexivity.
Qed.

Lemma series_vals_new (h ext : heap) (j : nat) (v : Series) :
  nth_error ext j = Some (SeriesObj v) ->
  series_vals (length h + j) (h ++ ext) = Some (v, h ++ ext).
Proof.
  unfold series_vals. intros Hj. rewrite read_new, Hj. reflexivity.
Qed.

Lemma mask_bits_new (h ext : heap) (j : nat) (b : list bool) :
  nth_error ext j = Some (MaskObj b) ->
  mask_bits (length h + j) (h ++ ext) = Some (b, h ++ ext).
Proof.
  unfold mask_bits. intros Hj. rewrite read_new, Hj. reflexivity.
Qed.

(** Each operation of the detector allocates its result past the end of
    the heap it finds. *)

Lemma getitem_temperature_ext (h ext : heap) (f : addr) (rows : DataFrame) :
  frame_rows f h = Some (rows, h) ->
  getitem_temperature f (h ++ ext) =
  Some ((length h + length ext)%nat,
        h ++ (ext ++ [SeriesObj (List.map temperature rows)])).
Proof.
  intros H. unfold getitem_temperature, bind.
  rewrite (frame_rows_old h ext f rows H). apply new_ext.
Qed.

Lemma series_map_ext (h ext : heap) (g : Series -> Series) (j : nat)
      (v : Series) :
  nth_error ext j = Some (SeriesObj v) ->
  series_map g (length h + j) (h ++ ext) =
  Some ((length h + length ext)%nat, h ++ (ext ++ [SeriesObj (g v)])).
Proof.
  intros H. unfold series_map, bind.
  rewrite (series_vals_new h ext j v H). apply new_ext.
Qed.

Lemma series_binop_ext (h ext : heap) (g : Series -> Series -> Series)
      (j k : nat) (x y : Series) :
  nth_error ext j = Some (SeriesObj x) ->
  nth_error ext k = Some (SeriesObj y) ->
  series_binop g (length h + j) (length h + k) (h ++ ext) =
  Some ((length h + length ext)%nat, h ++ (ext ++ [SeriesObj (g x y)])).
Proof.
  intros Hj Hk. unfold series_binop, bind.
  rewrite (series_vals_new h ext j x Hj), (series_vals_new h ext k y Hk).
  apply new_ext.
Qed.

Lemma series_cmp_ext (h ext : heap) (g : Series -> Series -> list bool)
      (j k : nat) (x y : Series) :
  nth_error ext j = Some (SeriesObj x) ->
  nth_error ext k = Some (SeriesObj y) ->
  series_cmp g (length h + j) (length h + k) (h ++ ext) =
  Some ((length h + length ext)%nat, h ++ (ext ++ [MaskObj (g x y)])).
Proof.
  intros Hj Hk. unfold series_cmp, bind.
  rewrite (series_vals_new h ext j x Hj), (series_vals_new h ext k y Hk).
  apply new_ext.
Qed.

Lemma mask_binop_ext (h ext : heap)
      (g : list bool -> list bool -> list bool) (j k : nat)
      (x y : list bool) :
  nth_error ext j = Some (MaskObj x) ->
  nth_error ext k = Some (MaskObj y) ->
  mask_binop g (length h + j) (length h + k) (h ++ ext) =
  Some ((length h + length ext)%nat, h ++ (ext ++ [MaskObj (g x y)])).
Proof.
  intros Hj Hk. unfold mask_binop, bind.
  rewrite (mask_bits_new h ext j x Hj), (mask_bits_new h ext k y Hk).
  apply new_ext.
Qed.

Lemma new_frame_ext (h ext : heap) (rows : DataFrame) :
  new_frame rows (h ++ ext) =
  Some ((length h + S (length ext))%nat,
        h ++ (ext ++ [Block rows; Frame (length h + length ext)])).
Proof.
  unfold new_frame, bind. rewrite new_ext, new_ext.
  rewrite length_app, <- app_assoc. simpl.
  repeat f_equal; lia.
Qed.

Lemma frame_getitem_mask_ext (h ext : heap) (f : addr) (rows : DataFrame)
      (k : nat) (bits : list bool) :
  frame_rows f h = Some (rows, h) ->
  nth_error ext k = Some (MaskObj bits) ->
  frame_getitem_mask f (length h + k) (h ++ ext) =
  Some ((length h + S (length ext))%nat,
        h ++ (ext ++ [Block (getitem_mask rows bits);
                      Frame (length h + length ext)])).
Proof.
  intros Hf Hk. unfold frame_getitem_mask, bind.
  rewrite (frame_rows_old h ext f rows Hf), (mask_bits_new h ext k bits Hk).
  apply new_frame_ext.
Qed.

Lemma frame_copy_ext (h ext : heap) (j k : nat) (rows : DataFrame) :
  nth_error ext j = Some (Frame (length h + k)) ->
  nth_error ext k = Some (Block rows) ->
  frame_copy (length h + j) (h ++ ext) =
  Some ((length h + S (length ext))%nat,
        h ++ (ext ++ [Block (copy rows); Frame (length h + length ext)])).
Proof.
  intros Hj Hk. unfold frame_copy, bind.
  rewrite (frame_rows_new h ext j k rows Hj Hk). apply new_frame_ext.
Qed.


End HeapFacts.

Section HeapRun.
Import Heap.

Variables (h : heap) (data : addr) (rows : DataFrame) (W : Z).
Hypothesis Hdata : frame_rows data h = Some (rows, h).

Let temps := List.map temperature rows.
Let r := mkRolling temps (Z.to_nat W).
Let upper := series_add (mean r) (scalar_mul 2%R (std r)).
Let lower := series_sub (mean r) (scalar_mul 2%R (std r)).
Let mask := mask_or (series_gt temps upper) (series_lt temps lower).

(** The objects one run of the detector allocates, in order. *)
Let allocated : heap :=
  [ SeriesObj temps; SeriesObj (mean r);
    SeriesObj temps; SeriesObj (std r);
    SeriesObj (scalar_mul 2%R (std r)); SeriesObj upper;
    SeriesObj (scalar_mul 2%R (std r)); SeriesObj lower;
    SeriesObj temps; MaskObj (series_gt temps upper);
    SeriesObj temps; MaskObj (series_lt temps lower);
    MaskObj mask;
    Block (getitem_mask rows mask); Frame (length h + 13);
    Block (copy (getitem_mask rows mask)); Frame (length h + 15) ].

Ltac alloc_step lem :=
  erewrite lem; [ | first [ exact Hdata | reflexivity ] .. ];
  cbn [length app]; cbv beta iota.

Lemma heap_run_ok :
  (0 <= W)%Z ->
  Heap.calculate_anomalies data W h =
  Some (Ok ((length h + 16)%nat, (length h + 1)%nat,
            (length h + 5)%nat, (length h + 7)%nat),
        h ++ allocated).
Proof.
  intros HW.
  assert (Hlt : (W <? 0)%Z = false) by (apply Z.ltb_ge; exact HW).
  unfold Heap.calculate_anomalies, Heap.calculate_moving_average,
    rolling_ref, bind, ret.
  rewrite Hlt.
  rewrite <- (app_nil_r h) at 1.
  alloc_step getitem_temperature_ext.
  alloc_step series_map_ext.
  alloc_step getitem_temperature_ext.
  alloc_step series_map_ext.
  alloc_step series_map_ext.
  alloc_step series_binop_ext.
  alloc_step series_map_ext.
  alloc_step series_binop_ext.
  alloc_step getitem_temperature_ext.
  alloc_step series_cmp_ext.
  alloc_step getitem_temperature_ext.
  alloc_step series_cmp_ext.
  alloc_step mask_binop_ext.
  alloc_step frame_getitem_mask_ext.
  alloc_step frame_copy_ext.
  reflexivity.
Qed.

Lemma heap_run_negative :
  (W < 0)%Z ->
  Heap.calculate_anomalies data W h =
  Some (Raise (ValueError "window must be an integer 0 or greater"),
        h ++ [SeriesObj temps]).
Proof.
  intros HW.
  assert (Hlt : (W <? 0)%Z = true) by (apply Z.ltb_lt; exact HW).
  unfold Heap.calculate_anomalies, Heap.calculate_moving_average,
    rolling_ref, bind, ret.
  rewrite Hlt.
  rewrite <- (app_nil_r h) at 1.
  alloc_step getitem_temperature_ext.
  reflexivity.
Qed.

End HeapRun.


(** C8. Two invocations of the detector on the same rows and the same
    window, each in a heap of its own, both return, and what the caller
    reads through the returned references is the same in both: the value
    of [calculate_anomalies] at these rows and this window, whatever else
    the two heaps contain. *)
Theorem detector_deterministic (rows : DataFrame) (W : Z)
        (h1 h2 : Heap.heap) (d1 d2 : Heap.addr) :
  Heap.frame_rows d1 h1 = Some (rows, h1) ->
  Heap.frame_rows d2 h2 = Some (rows, h2) ->
  exists out1 out2 h1' h2',
    Heap.calculate_anomalies d1 W h1 = Some (out1, h1') /\
    Heap.calculate_anomalies d2 W h2 = Some (out2, h2') /\
    Heap.deref_result out1 h1' = Some (calculate_anomalies rows W) /\
    Heap.deref_result out2 h2' = Some (calculate_anomalies rows W).
Proof.
  intros H1 H2.
  destruct (Z.lt_ge_cases W 0) as [Hneg|Hpos].
  - pose proof (heap_run_negative h1 d1 rows W H1 Hneg) as R1.
    pose proof (heap_run_negative h2 d2 rows W H2 Hneg) as R2.
    eexists _, _, _, _.
    split; [exact R1|]. split; [exact R2|].
    rewrite (calculate_anomalies_negative rows Hneg).
    split; reflexivity.
  - pose proof (heap_run_ok h1 d1 rows W H1 Hpos) as R1.
    pose proof (heap_run_ok h2 d2 rows W H2 Hpos) as R2.
    cbv zeta in R1, R2.
    eexists _, _, _, _.
    split; [exact R1|]. split; [exact R2|].
    rewrite (calculate_anomalies_ok rows Hpos).
    split.
    + unfold Heap.deref_result.
      erewrite (frame_rows_new h1 _ 16 15); [ | reflexivity ..].
      erewrite (series_vals_new h1 _ 1); [ | reflexivity ].
      erewrite (series_vals_new h1 _ 5); [ | reflexivity ].
      erewrite (series_vals_new h1 _ 7); [ | reflexivity ].
      reflexivity.
    + unfold Heap.deref_result.
      erewrite (frame_rows_new h2 _ 16 15); [ | reflexivity ..].
      erewrite (series_vals_new h2 _ 1); [ | reflexivity ].
      erewrite (series_vals_new h2 _ 5); [ | reflexivity ].
      erewrite (series_vals_new h2 _ 7); [ | reflexivity ].
      reflexivity.
Qed.

(** ** The process pool *)

Section Pool.
Context {A B : Type}.
Variables (f : A -> B) (tasks : list A).

Lemma set_nth_length {X} (k : nat) (x : X) (l : list X) :
  length (set_nth k x l) = length l.
Proof.
  revert k; induction l as [|y l IH]; intros [|k]; simpl; auto.
Qed.

Lemma set_nth_same {X} (k : nat) (x : X) (l : list X) :
  (k < length l)%nat -> nth_error (set_nth k x l) k = Some x.
Proof.
  revert k; induction l as [|y l IH]; intros [|k]; simpl; intros H;
    try lia; auto.
  apply IH; lia.
Qed.

Lemma set_nth_other {X} (k j : nat) (x : X) (l : list X) :
  j <> k -> nth_error (set_nth k x l) j = nth_error l j.
Proof.
  revert k j; induction l as [|y l IH]; intros [|k] [|j]; simpl;
    intros H; auto; try congruence.
Qed.

Lemma finish_length (slots : list (option B)) (k : nat) :
  length (Executor.finish f tasks slots k) = length slots.
Proof.
  unfold Executor.finish.
  destruct (nth_error tasks k); [apply set_nth_length | reflexivity].
Qed.

Lemma run_length (sched : list nat) (slots : list (option B)) :
  length (fold_left (Executor.finish f tasks) sched slots) = length slots.
Proof.
  revert slots; induction sched as [|k sched IH]; intros slots; simpl.
  - reflexivity.
  - rewrite IH. apply finish_length.
Qed.

(** A slot that holds the result of its task keeps it. *)
Lemma run_keeps (sched : list nat) (slots : list (option B))
      (k : nat) (t : A) :
  nth_error tasks k = Some t ->
  nth_error slots k = Some (Some (f t)) ->
  nth_error (fold_left (Executor.finish f tasks) sched slots) k
    = Some (Some (f t)).
Proof.
  intros Ht. revert slots.
  induction sched as [|j sched IH]; intros slots Hk; simpl; [exact Hk|].
  apply IH. unfold Executor.finish.
  destruct (nth_error tasks j) as [tj|] eqn:Ej; [|exact Hk].
  destruct (Nat.eq_dec j k) as [->|Hne].
  - rewrite set_nth_same by (apply nth_error_Some; congruence).
    congruence.
  - rewrite set_nth_other by congruence. exact Hk.
Qed.

(** A task that the schedule names ends with its result in its slot. *)
Lemma run_fills (sched : list nat) (slots : list (option B))
      (k : nat) (t : A) :
  length slots = length tasks ->
  nth_error tasks k = Some t ->
  In k sched ->
  nth_error (fold_left (Executor.finish f tasks) sched slots) k
    = Some (Some (f t)).
Proof.
  intros Hlen Ht. revert slots Hlen.
  induction sched as [|j sched IH]; intros slots Hlen Hin; simpl.
  - destruct Hin.
  - destruct (Nat.eq_dec j k) as [->|Hne].
    + apply run_keeps; [exact Ht|].
      unfold Executor.finish. rewrite Ht.
      apply set_nth_same. rewrite Hlen.
      apply nth_error_Some; congruence.
    + apply IH.
      * rewrite finish_length; exact Hlen.
      * destruct Hin; [congruence | assumption].
Qed.

Lemma collect_all (l : list B) :
  Executor.collect (List.map Some l) = Some l.
Proof.
  induction l as [|x l IH]; simpl; [reflexivity|].
  rewrite IH; reflexivity.
Qed.

(** Whatever the order in which the workers finish, the pool hands
    out the results in the order of the tasks. *)
Lemma executor_map_any_order (sched : list nat) :
  Permutation sched (seq 0 (length tasks)) ->
  Executor.map f tasks sched = Some (List.map f tasks).
Proof.
  intros Hp. unfold Executor.map, Executor.run.
  set (final := fold_left (Executor.finish f tasks) sched
                          (repeat None (length tasks))).
  assert (Hfinal : final = List.map Some (List.map f tasks)).
  { apply nth_error_ext. intros k.
    destruct (nth_error tasks k) as [t|] eqn:Ek.
    - rewrite List.map_map, nth_error_map, Ek. simpl.
      apply run_fills.
      + apply repeat_length.
      + exact Ek.
      + apply (Permutation_in k (Permutation_sym Hp)).
        apply in_seq. split; [lia|]. simpl.
        apply nth_error_Some; congruence.
    - rewrite List.map_map, nth_error_map, Ek. simpl.
      apply nth_error_None. unfold final.
      rewrite run_length, repeat_length.
      apply nth_error_None; exact Ek. }
  rewrite Hfinal. apply collect_all.
Qed.

End Pool.

Lemma mapM_zip_keys {K G V U : Type} (F : G -> result V) (wrap : V -> U)
      (l : list (K * G)) :
  mapM (fun nr => res <- snd nr ;; Ok (fst nr, wrap res))
       (combine (List.map fst l) (List.map F (List.map snd l)))
  = mapM (fun g => res <- F (snd g) ;; Ok (fst g, wrap res)) l.
Proof.
  induction l as [|[k g] l IH]; simpl; [reflexivity|].
  rewrite IH. reflexivity.
Qed.

(** The detector never raises with the default window. *)
Lemma mapM_default_window (groups : list (string * DataFrame)) :
  exists d,
    mapM (fun g => res <- calculate_anomalies (snd g) default_window ;;
                   Ok (fst g, Analysis res)) groups = Ok d /\
    List.map fst d = List.map fst groups.
Proof.
  induction groups as [|[k g] groups [d [Hd Hk]]].
  - exists []; split; reflexivity.
  - cbn [mapM List.map fst snd].
    rewrite (calculate_anomalies_ok g (W := default_window))
      by (unfold default_window; lia).
    cbn [Py.bind]. rewrite Hd. cbn [Py.bind].
    eexists; split; [reflexivity|].
    cbn [List.map fst]. rewrite Hk. reflexivity.
Qed.

(** For every table with at least one city and every order in which the
    workers of the pool finish the cities (any permutation of the
    submitted tasks), the parallel analysis returns, and it returns the
    dictionary of the sequential analysis: the same city keys, in the
    same order, each with the same
    [(anomalies, rolling_mean, upper_bound, lower_bound)]. *)
Theorem parallel_equals_sequential_nonempty (data : DataFrame)
        (sched : list nat) :
  groupby city data <> [] ->
  Permutation sched (seq 0 (length (groupby city data))) ->
  exists d,
    analyze_data_sequential data = Ok d /\
    analyze_data_parallel data sched = Some (Ok d) /\
    List.map fst d = group_keys (List.map city data).
Proof.
  intros Hne Hp.
  destruct (mapM_default_window (groupby city data)) as [d [Hd Hk]].
  exists d. split; [|split].
  - unfold analyze_data_sequential.
    destruct (groupby city data) as [|g gs]; [congruence | exact Hd].
  - unfold analyze_data_parallel.
    rewrite executor_map_any_order
      by (rewrite length_map; exact Hp).
    rewrite (mapM_zip_keys (fun g => calculate_anomalies g default_window)
                           Analysis).
    f_equal. exact Hd.
  - rewrite Hk. unfold groupby. rewrite List.map_map. simpl.
    apply List.map_id.
Qed.

(** C4. On a table without rows the two analyses disagree: the pool has
    no task and the parallel analysis returns the empty dictionary, while
    the sequential analysis returns a dictionary whose keys are the four
    column names, each with an empty dictionary. *)
Theorem analyses_differ_on_empty_table :
  analyze_data_parallel [] [] = Some (Ok []) /\
  analyze_data_sequential []
    = Ok [ ("city"%string, EmptyColumn); ("timestamp"%string, EmptyColumn);
           ("temperature"%string, EmptyColumn);
           ("season"%string, EmptyColumn) ] /\
  Permutation (@nil nat) (seq 0 (length (groupby city []))) /\
  analyze_data_parallel [] [] <> Some (analyze_data_sequential []).
Proof.
  split; [reflexivity|]. split; [reflexivity|].
  split; [apply perm_nil|]. discriminate.
Qed.

(** ** Seasonal table and live reading *)

Lemma insert_sorted_in (k x : string) (l : list string) :
  In x (insert_sorted k l) <-> x = k \/ In x l.
Proof.
  induction l as [|y l IH]; simpl.
  - intuition congruence.
  - destruct (String.leb k y); simpl; rewrite ?IH; intuition congruence.
Qed.

Lemma group_keys_in (x : string) (l : list string) :
  In x (group_keys l) <-> In x l.
Proof.
  unfold group_keys, sort_keys. rewrite <- (nodup_In string_dec l x).
  induction (nodup string_dec l) as [|y ys IH]; simpl; [tauto|].
  rewrite insert_sorted_in, IH. intuition congruence.
Qed.

Lemma loc_absent {V : Type} (table : list (string * V)) (k : string) :
  ~ In k (List.map fst table) -> loc table k = Raise (KeyError (KStr k)).
Proof.
  induction table as [|[k' v] table IH]; simpl; intros H; [reflexivity|].
  destruct (String.eqb_spec k' k) as [->|Hne]; [tauto|].
  apply IH. tauto.
Qed.

Lemma loc_present {V : Type} (table : list (string * V)) (k : string) :
  In k (List.map fst table) -> exists v, loc table k = Ok v.
Proof.
  induction table as [|[k' v] table IH]; simpl; intros H; [tauto|].
  destruct (String.eqb_spec k' k) as [->|Hne]; [eauto|].
  apply IH. destruct H; [congruence | assumption].
Qed.

Lemma stats_keys (city_data : DataFrame) :
  List.map fst (stats city_data) = group_keys (List.map season city_data).
Proof.
  unfold stats, groupby. rewrite !List.map_map. simpl. apply List.map_id.
Qed.

(** C5. When no row of the city carries the season of the reading, the
    classification raises [KeyError] for that season, which is a
    [LookupError]; the [try ... except Exception] around it turns the
    exception into an error message, so the live section itself returns
    normally. *)
Theorem missing_season_lookup_error (city_data : DataFrame)
        (current_temp : R) (s : string) (current_month : Z) (w : Weather) :
  ~ In s (List.map season city_data) ->
  current_season current_month = Ok s ->
  cod_is_401 w = false ->
  main_temp w = Some current_temp ->
  classify_reading (stats city_data) current_temp s
    = Raise (KeyError (KStr s)) /\
  is_LookupError (KeyError (KStr s)) = true /\
  live_block (stats city_data) (Some w) current_month
    = Raise (KeyError (KStr s)) /\
  live_section (stats city_data) (Some w) current_month
    = Ok (ShowError (KeyError (KStr s))).
Proof.
  intros Habs Hseason Hcod Htemp.
  assert (Hloc : loc (stats city_data) s = Raise (KeyError (KStr s))).
  { apply loc_absent. rewrite stats_keys, group_keys_in. exact Habs. }
  assert (Hc : classify_reading (stats city_data) current_temp s
               = Raise (KeyError (KStr s))).
  { unfold classify_reading. rewrite Hloc. reflexivity. }
  assert (Hb : live_block (stats city_data) (Some w) current_month
               = Raise (KeyError (KStr s))).
  { unfold live_block. rewrite Hcod, Htemp, Hseason. cbn [Py.bind].
    rewrite Hc. reflexivity. }
  repeat split; try assumption.
  unfold live_section. rewrite Hb. reflexivity.
Qed.

(** ** Window validation *)

Lemma mean_window_zero (S : Series) :
  mean (mkRolling S 0) = repeat NaN (length S).
Proof.
  unfold mean, apply_windows, window_bounds. cbn [obj window].
  rewrite List.map_map.
  rewrite (@map_constant _ _ _ (seq 0 (length S)) NaN).
  - rewrite length_seq. reflexivity.
  - intros i _. unfold slice. cbn [fst snd].
    replace (i + 1 - (i + 1 - 0))%nat with 0%nat by lia.
    reflexivity.
Qed.

(** C9, as the code has it. A window that is not positive is either
    negative, and then the rolling mean and the detector both raise
    [ValueError], or zero, and then it is accepted: the rolling mean
    returns a series of the length of the input whose cells are all
    missing. *)
Theorem window_validation (data : DataFrame) (W : Z) :
  (W <= 0)%Z ->
  ((W < 0)%Z /\
   calculate_moving_average data W
     = Raise (ValueError "window must be an integer 0 or greater") /\
   calculate_anomalies data W
     = Raise (ValueError "window must be an integer 0 or greater")) \/
  (W = 0%Z /\
   calculate_moving_average data W = Ok (repeat NaN (length data))).
Proof.
  intros HW. destruct (Z.eq_dec W 0) as [->|Hne].
  - right. split; [reflexivity|].
    unfold calculate_moving_average.
    rewrite rolling_ok by lia. cbn [Py.bind Z.to_nat].
    rewrite mean_window_zero, length_map. reflexivity.
  - left. assert (Hneg : (W < 0)%Z) by lia.
    split; [exact Hneg|]. split.
    + unfold calculate_moving_average.
      rewrite rolling_negative by exact Hneg. reflexivity.
    + apply calculate_anomalies_negative; exact Hneg.
Qed.

(** C9, as the claim has it, fails: with window [0] the rolling mean of
    a three-day series is returned, all cells missing, and nothing is
    raised. *)
Lemma window_zero_is_accepted :
  calculate_moving_average three_days 0 = Ok [NaN; NaN; NaN] /\
  ~ (forall data W, (W <= 0)%Z ->
       exists e, calculate_moving_average data W = Raise e).
Proof.
  assert (H : calculate_moving_average three_days 0 = Ok [NaN; NaN; NaN]).
  { unfold calculate_moving_average.
    rewrite rolling_ok by lia. cbn [Py.bind Z.to_nat].
    rewrite mean_window_zero. reflexivity. }
  split; [exact H|].
  intros Hall. destruct (Hall three_days 0%Z) as [e He]; [lia|].
  rewrite H in He. discriminate.
Qed.

(** ** Rounded display statistics in the live classification *)

Section Rounding.
Local Open Scope R_scope.

Lemma rint_near (x : R) (n : Z) :
  IZR n - 1 / 2 < x < IZR n + 1 / 2 -> F64.rint x = n.
Proof.
  intros [Hlo Hhi]. unfold F64.rint.
  destruct (base_Int_part x) as [Hle Hgt].
  set (m := Int_part x) in *.
  assert (Hmn : (m <= n)%Z).
  { apply Z.lt_succ_r, lt_IZR. rewrite succ_IZR. lra. }
  assert (Hnm : (n - 1 <= m)%Z).
  { apply Z.lt_succ_r, lt_IZR. rewrite succ_IZR, minus_IZR. lra. }
  destruct (Rlt_dec (x - IZR m) (1 / 2)) as [Hf|Hf].
  - assert (Hn : (n <= m)%Z).
    { apply Z.lt_succ_r, lt_IZR. rewrite succ_IZR. lra. }
    lia.
  - assert (Hm : m = (n - 1)%Z).
    { destruct (Z.eq_dec m n) as [->|Hne]; [lra | lia]. }
    destruct (Rlt_dec (1 / 2) (x - IZR m)) as [Hg|Hg]; [lia|].
    subst m. rewrite Hm, minus_IZR in Hg. lra.
Qed.

Lemma round2_near (x : R) (n : Z) :
  IZR n - 1 / 2 < x * 100 < IZR n + 1 / 2 ->
  F64.round 2 (Some x) = Some (IZR n / 100).
Proof.
  intros H. unfold F64.round.
  replace (10 ^ 2) with 100 by (simpl; lra).
  rewrite (rint_near _ _ H). reflexivity.
Qed.

Lemma winter_groups :
  groupby season winter_days = [("winter"%string, winter_days)].
Proof. reflexivity. Qed.

Lemma winter_mean :
  agg_mean (List.map temperature winter_days) = Some (10126 / 1000).
Proof.
  unfold agg_mean. cbn [winter_days day List.map temperature dropna length Nat.ltb Nat.leb].
  cbn [Rsum fold_right INR]. f_equal. field.
Qed.

Lemma winter_std :
  agg_std (List.map temperature winter_days) = Some (126 / 1000).
Proof.
  unfold agg_std. cbn [winter_days day List.map temperature dropna length Nat.ltb Nat.leb Nat.sub].
  cbn [Rsum fold_right INR List.map]. f_equal.
  rewrite <- (sqrt_square (126 / 1000)) by lra.
  f_equal. field.
Qed.
End Rounding.

(** C1. The live verdict is computed from the rounded table and can
    differ from the verdict of the same 2-sigma rule on the statistics
    that were not rounded.  For a winter of 10, 10.126 and 10.252 degrees
    (mean 10.126, deviation 0.126) and a reading of 10.38 degrees: the
    classification of the application, which reads the table [stats]
    rounded to two decimals (10.13 and 0.13), answers "not anomalous",
    while the rule on the mean and deviation of [seasonal_stats], the
    table behind the seasonal chart, answers "anomalous". *)
Theorem rounded_table_changes_verdict :
  classify_reading (stats winter_days) (1038 / 100) "winter" = Ok false /\
  loc (seasonal_stats winter_days) "winter"
    = Ok (Some (10126 / 1000)%R, Some (126 / 1000)%R) /\
  outside_2sigma (Some (1038 / 100)%R)
                 (Some (10126 / 1000)%R) (Some (126 / 1000)%R) = true.
Proof.
  split; [|split].
  - unfold classify_reading, stats. rewrite winter_groups.
    cbn [List.map fst snd]. unfold loc. rewrite String.eqb_refl.
    cbn [Py.bind]. unfold round_stats, agg_all. cbn [st_mean st_std].
    rewrite winter_mean, winter_std.
    rewrite (round2_near _ 1013) by lra.
    rewrite (round2_near _ 13) by lra.
    unfold outside_2sigma.
    cbn [F64.gt F64.lt F64.add F64.sub F64.mul F64.lift2].
    rewrite !Rltb_false by lra. reflexivity.
  - unfold seasonal_stats. rewrite winter_groups.
    cbn [List.map fst snd]. unfold loc. rewrite String.eqb_refl.
    rewrite winter_mean, winter_std. reflexivity.
  - unfold outside_2sigma.
    cbn [F64.gt F64.lt F64.add F64.sub F64.mul F64.lift2].
    rewrite Rltb_true by lra. reflexivity.
Qed.

(** ** The 35-day example *)

Section Spike.
Local Open Scope R_scope.

Lemma slice_prefix {A} (l1 l2 : list A) (lo hi : nat) :
  (hi <= length l1)%nat -> slice (l1 ++ l2) lo hi = slice l1 lo hi.
Proof.
  intros H. unfold slice.
  rewrite skipn_app, firstn_app, length_skipn.
  replace (hi - lo - (length l1 - lo))%nat with 0%nat by lia.
  rewrite firstn_O, app_nil_r. reflexivity.
Qed.

Lemma mean_prefix (l1 l2 : Series) (w i : nat) :
  (i < length l1)%nat ->
  nth i (mean (mkRolling (l1 ++ l2) w)) NaN
  = nth i (mean (mkRolling l1 w)) NaN.
Proof.
  intros Hi. unfold mean.
  rewrite !apply_windows_nth
    by (cbn [obj]; rewrite ?length_app; lia).
  cbn [obj window]. rewrite slice_prefix by lia. reflexivity.
Qed.

Lemma std_prefix (l1 l2 : Series) (w i : nat) :
  (i < length l1)%nat ->
  nth i (std (mkRolling (l1 ++ l2) w)) NaN
  = nth i (std (mkRolling l1 w)) NaN.
Proof.
  intros Hi.
  rewrite !std_nth by (cbn [obj]; rewrite ?length_app; lia).
  cbn [obj window]. rewrite slice_prefix by lia. reflexivity.
Qed.

Lemma Rsum_app (l1 l2 : list R) : Rsum (l1 ++ l2) = Rsum l1 + Rsum l2.
Proof.
  unfold Rsum. induction l1 as [|x l1 IH]; simpl; [lra|].
  rewrite IH. lra.
Qed.

Lemma spike_temps :
  List.map temperature spike_series = repeat (Some 10) 34 ++ [Some 50].
Proof. reflexivity. Qed.

Lemma spike_last_window :
  dropna (@slice float64 (repeat (Some 10) 34 ++ [Some 50])
                 (34 + 1 - 30) (34 + 1))
  = repeat 10 29 ++ [50].
Proof. reflexivity. Qed.

Let r := mkRolling (repeat (Some 10) 34 ++ [Some 50]) 30.

Lemma spike_mean_last : nth 34 (mean r) NaN = Some (34 / 3).
Proof.
  unfold mean. rewrite apply_windows_nth by (cbn; lia).
  cbn [r obj window]. rewrite spike_last_window.
  unfold roll_mean. rewrite Rsum_app, Rsum_repeat.
  change (length (repeat 10 29 ++ [50])) with 30%nat.
  cbn [Nat.leb Nat.ltb andb Rsum fold_right].
  rewrite !INR_IZR_INZ. cbn [Z.of_nat Pos.of_succ_nat Pos.succ].
  f_equal. field.
Qed.

Lemma spike_std_last : nth 34 (std r) NaN = Some (sqrt (160 / 3)).
Proof.
  rewrite std_nth by (cbn; lia).
  cbn [r obj window]. rewrite spike_last_window.
  unfold roll_var.
  change (length (repeat 10 29 ++ [50])) with 30%nat.
  cbn [Nat.max Nat.leb Nat.ltb Nat.eqb andb Nat.sub].
  rewrite map_app, map_repeat, !Rsum_app, !Rsum_repeat.
  cbn [List.map Rsum fold_right].
  rewrite !INR_IZR_INZ. cbn [Z.of_nat Pos.of_succ_nat Pos.succ].
  match goal with
  | |- zsqrt (Some ?v) = _ => replace v with (160 / 3) by field
  end.
  unfold zsqrt. rewrite Rltb_false by lra. reflexivity.
Qed.

Lemma sqrt_160_3 : sqrt (160 / 3) < 8.
Proof.
  rewrite <- (sqrt_square 8) by lra.
  apply sqrt_lt_1_alt. lra.
Qed.

Lemma spike_mask (i : nat) :
  (i < 35)%nat ->
  outside_2sigma (nth i (repeat (Some 10) 34 ++ [Some 50]) NaN)
                 (nth i (mean r) NaN) (nth i (std r) NaN)
  = nth i (repeat false 34 ++ [true]) false.
Proof.
  intros Hi.
  destruct (Nat.eq_dec i 34) as [->|Hne].
  - rewrite spike_mean_last, spike_std_last.
    change (nth 34 (repeat (Some 10) 34 ++ [Some 50]) NaN) with (Some 50).
    change (nth 34 (repeat false 34 ++ [true]) false) with true.
    unfold outside_2sigma.
    cbn [F64.gt F64.lt F64.add F64.sub F64.mul F64.lift2].
    pose proof sqrt_160_3.
    rewrite Rltb_true by lra. reflexivity.
  - assert (Hi' : (i < 34)%nat) by lia.
    rewrite (app_nth1 (repeat false 34) [true] false)
      by (rewrite repeat_length; exact Hi').
    rewrite nth_repeat_lt by exact Hi'.
    rewrite (app_nth1 (repeat (Some 10) 34) [Some 50] NaN)
      by (rewrite repeat_length; exact Hi').
    rewrite nth_repeat_lt by exact Hi'.
    unfold r.
    rewrite mean_prefix, std_prefix by (rewrite repeat_length; exact Hi').
    rewrite constant_mean_nth, constant_std_nth by exact Hi'.
    destruct (Nat.leb_spec 30 (i + 1)); cbn [Nat.ltb Nat.leb andb].
    + unfold outside_2sigma.
      cbn [F64.gt F64.lt F64.add F64.sub F64.mul F64.lift2].
      rewrite !Rltb_false by lra. reflexivity.
    + apply outside_2sigma_missing. left; reflexivity.
Qed.

End Spike.

(** C6. On the 35-point series (34 times 10 degrees, then 50 degrees at
    index 34) with window 30 the detector returns, its anomalous subset
    is exactly the row of index 34, whose temperature is 50, and at the
    indices 0 to 28 both bounds are missing and the mask of the detector is
    false. *)
Theorem spike_series_single_anomaly :
  exists rolling_mean upper lower mask,
    calculate_anomalies spike_series 30
      = Ok ([day "Berlin" "winter" 34 50], rolling_mean, upper, lower) /\
    getitem_mask spike_series mask = [day "Berlin" "winter" 34 50] /\
    mask = mask_or (series_gt (List.map temperature spike_series) upper)
                   (series_lt (List.map temperature spike_series) lower) /\
    length spike_series = 35%nat /\
    nth_error spike_series 34 = Some (day "Berlin" "winter" 34 50) /\
    temperature (day "Berlin" "winter" 34 50) = Some 50%R /\
    forall i, (i <= 28)%nat ->
      nth i upper NaN = NaN /\ nth i lower NaN = NaN /\
      nth i mask false = false.
Proof.
  assert (HW : (0 <= 30)%Z) by lia.
  pose proof (calculate_anomalies_ok spike_series HW) as Hrun.
  cbv zeta in Hrun. rewrite spike_temps in Hrun.
  change (Z.to_nat 30) with 30%nat in Hrun.
  set (temps := repeat (Some 10%R) 34 ++ [Some 50%R]) in *.
  set (r := mkRolling temps 30) in *.
  assert (Hm : length (mean r) = length temps)
    by (rewrite mean_length; reflexivity).
  assert (Hs : length (std r) = length temps)
    by (rewrite std_length; reflexivity).
  assert (Hlen : length temps = 35%nat) by reflexivity.
  assert (Hmask :
            mask_or (series_gt temps (series_add (mean r) (scalar_mul 2 (std r))))
                    (series_lt temps (series_sub (mean r) (scalar_mul 2 (std r))))
            = repeat false 34 ++ [true]).
  { apply (nth_ext _ _ false false).
    - rewrite (mask_length _ _ _ Hm Hs). reflexivity.
    - intros i Hi. rewrite (mask_length _ _ _ Hm Hs) in Hi.
      change (i < 35)%nat in Hi.
      rewrite (mask_nth _ _ _ Hm Hs) by exact Hi.
      apply spike_mask; exact Hi. }
  eexists _, _, _, (repeat false 34 ++ [true]).
  split.
  { rewrite Hrun, Hmask. reflexivity. }
  split; [reflexivity|].
  split.
  { rewrite spike_temps. fold temps. symmetry. exact Hmask. }
  split; [reflexivity|].
  split; [reflexivity|].
  split; [reflexivity|].
  intros i Hi.
  assert (Hi' : (i < length temps)%nat) by (change (i < 35)%nat; lia).
  rewrite (upper_nth _ _ _ Hm Hs Hi'), (lower_nth _ _ _ Hm Hs Hi').
  unfold r. rewrite mean_underfilled by (exact Hi' || lia).
  split; [reflexivity|]. split; [reflexivity|].
  rewrite app_nth1 by (rewrite repeat_length; lia).
  apply nth_repeat_lt. lia.
Qed.

(** ** The theorems at sample inputs *)



Lemma parallel_equals_sequential_nonempty_witness :
  groupby city three_cities <> [] /\
  Permutation [2; 0; 1]%nat (seq 0 (length (groupby city three_cities))) /\
  exists d,
    analyze_data_sequential three_cities = Ok d /\
    analyze_data_parallel three_cities [2; 0; 1]%nat = Some (Ok d) /\
    List.map fst d = group_keys (List.map city three_cities).
Proof.
  assert (Hne : groupby city three_cities <> []) by discriminate.
  assert (Hp : Permutation [2; 0; 1]%nat
                 (seq 0 (length (groupby city three_cities)))).
  { change (Permutation [2; 0; 1]%nat [0; 1; 2]%nat).
    apply (perm_trans (perm_swap 0%nat 2%nat [1%nat])).
    apply perm_skip. apply perm_swap. }
  split; [exact Hne|]. split; [exact Hp|].
  apply (parallel_equals_sequential_nonempty three_cities [2; 0; 1]%nat
           Hne Hp).
Defined.

Lemma missing_season_lookup_error_witness :
  ~ In "summer"%string (List.map season three_days) /\
  current_season 7 = Ok "summer"%string /\
  cod_is_401 warm_answer = false /\
  main_temp warm_answer = Some 25%R /\
  classify_reading (stats three_days) 25 "summer"
    = Raise (KeyError (KStr "summer")) /\
  is_LookupError (KeyError (KStr "summer")) = true /\
  live_block (stats three_days) (Some warm_answer) 7
    = Raise (KeyError (KStr "summer")) /\
  live_section (stats three_days) (Some warm_answer) 7
    = Ok (ShowError (KeyError (KStr "summer"))).
Proof.
  assert (Habs : ~ In "summer"%string (List.map season three_days)).
  { simpl. intros [H|[H|[H|[]]]]; discriminate H. }
  split; [exact Habs|].
  split; [reflexivity|]. split; [reflexivity|]. split; [reflexivity|].
  apply (@missing_season_lookup_error three_days 25 "summer" 7 warm_answer
           Habs eq_refl eq_refl eq_refl).
Defined.


Lemma detector_deterministic_witness :
  Heap.frame_rows 1%nat small_heap = Some (three_days, small_heap) /\
  Heap.frame_rows 2%nat other_heap = Some (three_days, other_heap) /\
  exists out1 out2 h1' h2',
    Heap.calculate_anomalies 1%nat 2 small_heap = Some (out1, h1') /\
    Heap.calculate_anomalies 2%nat 2 other_heap = Some (out2, h2') /\
    Heap.deref_result out1 h1' = Some (calculate_anomalies three_days 2) /\
    Heap.deref_result out2 h2' = Some (calculate_anomalies three_days 2).
Proof.
  split; [reflexivity|]. split; [reflexivity|].
  apply (@detector_deterministic three_days 2 small_heap other_heap
           1%nat 2%nat eq_refl eq_refl).
Defined.

Lemma window_validation_witness :
  (0 <= 0)%Z /\
  (((0 < 0)%Z /\
    calculate_moving_average three_days 0
      = Raise (ValueError "window must be an integer 0 or greater") /\
    calculate_anomalies three_days 0
      = Raise (ValueError "window must be an integer 0 or greater")) \/
   (0%Z = 0%Z /\
    calculate_moving_average three_days 0
      = Ok (repeat NaN (length three_days)))).
Proof.
  split; [lia|].
  apply (@window_validation three_days 0). lia.
Defined.


(* ================================================================== *)
(** * Further properties of the detector *)

Section DetectorFacts.
Local Open Scope R_scope.





(** What the mean and the deviation of a position are made of: the
    window is full, none of its cells is missing, and its last cell is the
    cell of the position. *)
Lemma slice_last {A} (S : list A) (lo i : nat) (d : A) :
  (lo <= i)%nat -> (i < length S)%nat ->
  slice S lo (i + 1) = slice S lo i ++ [nth i S d].
Proof.
  intros Hlo Hi. unfold slice.
  replace (i + 1 - lo)%nat with (Datatypes.S (i - lo)) by lia.
  remember (i - lo)%nat as k eqn:Hk.
  assert (Hn : nth i S d = nth k (skipn lo S) d).
  { rewrite nth_skipn. f_equal; lia. }
  rewrite Hn.
  assert (Hlen : (k < length (skipn lo S))%nat)
    by (rewrite length_skipn; lia).
  clear Hn Hk. revert k Hlen.
  induction (skipn lo S) as [|y l IH]; intros k Hlen; simpl in Hlen.
  - lia.
  - destruct k as [|k].
    + reflexivity.
    + cbn [firstn nth app]. f_equal.
      apply IH. lia.
Qed.

Lemma dropna_app (a b : list float64) :
  dropna (a ++ b) = dropna a ++ dropna b.
Proof.
  induction a as [|[x|] a IH]; simpl; congruence.
Qed.

Lemma window_full (S : Series) (w i : nat) (m : R) :
  (i < length S)%nat ->
  nth i (mean (mkRolling S w)) NaN = Some m ->
  (0 < w)%nat /\ (w <= i + 1)%nat /\
  exists l x,
    nth i S NaN = Some x /\
    dropna (slice S (i + 1 - w) (i + 1)) = l ++ [x] /\
    length (l ++ [x]) = w /\
    m = Rsum (l ++ [x]) / INR w.
Proof.
  intros Hi H. unfold mean in H.
  rewrite apply_windows_nth in H by exact Hi. cbn [obj window] in H.
  unfold roll_mean in H.
  set (obs := dropna (slice S (i + 1 - w) (i + 1))) in *.
  destruct ((w <=? length obs) && (0 <? length obs))%nat eqn:E;
    [|discriminate].
  apply andb_true_iff in E as [E1 E2].
  apply Nat.leb_le in E1. apply Nat.ltb_lt in E2.
  assert (Hsl : (length (slice S (i + 1 - w) (i + 1)) <= w)%nat).
  { unfold slice. rewrite length_firstn. lia. }
  assert (Hsl2 : (length (slice S (i + 1 - w) (i + 1)) <= i + 1)%nat).
  { unfold slice. rewrite length_firstn. lia. }
  pose proof (dropna_length_le (slice S (i + 1 - w) (i + 1))) as Hd.
  fold obs in Hd.
  assert (Hw : length obs = w) by lia.
  assert (Hfull : length obs = length (slice S (i + 1 - w) (i + 1))) by lia.
  assert (Hwi : (w <= i + 1)%nat) by lia.
  assert (Hpos : (0 < w)%nat) by lia.
  split; [exact Hpos|]. split; [exact Hwi|].
  pose proof (dropna_full _ Hfull) as Hmap. fold obs in Hmap.
  rewrite (slice_last S (i + 1 - w) i NaN) in Hmap by lia.
  destruct (nth i S NaN) as [x|] eqn:Hx.
  - assert (Hobs : obs = dropna (slice S (i + 1 - w) i) ++ [x]).
    { unfold obs. rewrite (slice_last S (i + 1 - w) i NaN) by lia.
      rewrite dropna_app, Hx. reflexivity. }
    exists (dropna (slice S (i + 1 - w) i)), x.
    split; [reflexivity|]. split; [exact Hobs|].
    split; [rewrite <- Hobs; exact Hw|].
    rewrite <- Hobs. rewrite Hw in H. inversion H. reflexivity.
  - exfalso.
    assert (Hin : In NaN (List.map Some obs)).
    { rewrite <- Hmap. apply in_or_app. right. left. reflexivity. }
    apply in_map_iff in Hin. destruct Hin as [y [Hy _]]. discriminate.
Qed.

End DetectorFacts.







Section Gaps.
Local Open Scope R_scope.





End Gaps.



Section SmallWindows.
Local Open Scope R_scope.

Lemma Rsum_map_shift (m : R) (l : list R) :
  Rsum (List.map (fun y => y - m) l) = Rsum l - INR (length l) * m.
Proof.
  induction l as [|y l IH].
  - simpl. lra.
  - cbn [List.map Rsum fold_right length]. rewrite S_INR.
    unfold Rsum in IH. rewrite IH. lra.
Qed.

Lemma Rsum_squares_nonneg (l : list R) :
  0 <= Rsum (List.map (fun y => y * y) l).
Proof.
  induction l as [|z l IH]; cbn [List.map Rsum fold_right]; [lra|].
  fold (Rsum (List.map (fun y => y * y) l)).
  pose proof (Rle_0_sqr z) as Hz. unfold Rsqr in Hz. lra.
Qed.

(** The square of a sum is at most the count times the sum of squares. *)
Lemma sum_square_le (l : list R) :
  Rsum l * Rsum l <= INR (length l) * Rsum (List.map (fun y => y * y) l).
Proof.
  induction l as [|y l IH].
  - simpl. lra.
  - cbn [List.map Rsum fold_right length]. rewrite S_INR.
    fold (Rsum l). fold (Rsum (List.map (fun y => y * y) l)).
    set (S := Rsum l) in *.
    set (Q := Rsum (List.map (fun y => y * y) l)) in *.
    set (k := INR (length l)) in *.
    assert (Hk : 0 <= k) by apply pos_INR.
    assert (HQ : 0 <= Q) by apply Rsum_squares_nonneg.
    destruct (Req_dec k 0) as [Hk0|Hk0].
    + assert (HS : S * S <= 0) by (rewrite Hk0 in IH; lra).
      assert (HS0 : S = 0).
      { destruct (Req_dec S 0) as [E|E]; [exact E|].
        pose proof (Rsqr_pos_lt S E) as Hp. unfold Rsqr in Hp. lra. }
      rewrite HS0, Hk0. nra.
    + assert (Hkpos : 0 < k) by lra.
      pose proof (Rle_0_sqr (k * y - S)) as Hsq. unfold Rsqr in Hsq.
      assert (H2 : k * (2 * y * S) <= k * (k * (y * y) + Q)) by nra.
      assert (H3 : 2 * y * S <= k * (y * y) + Q).
      { apply (Rmult_le_reg_l k); assumption. }
      nra.
Qed.

(** No cell of a window is further from the window mean than
    [(n - 1) / sqrt n] sample deviations: [n (x - m)^2 <= (n - 1) SS]. *)
Lemma last_cell_deviation (l : list R) (x : R) :
  let n := INR (length (l ++ [x])) in
  let m := Rsum (l ++ [x]) / n in
  n * ((x - m) * (x - m))
  <= (n - 1) * Rsum (List.map (fun y => (y - m) * (y - m)) (l ++ [x])).
Proof.
  intros n m.
  assert (Hn : n = INR (length l) + 1).
  { unfold n. rewrite length_app, plus_INR. simpl. reflexivity. }
  assert (Hnpos : 0 < n) by (pose proof (pos_INR (length l)); lra).
  assert (Hsum : Rsum l + x = n * m).
  { unfold m. rewrite Rsum_app. cbn [Rsum fold_right].
    field_simplify; lra. }
  rewrite map_app, Rsum_app. cbn [List.map Rsum fold_right].
  pose proof (sum_square_le (List.map (fun y => y - m) l)) as CS.
  rewrite Rsum_map_shift, length_map, List.map_map in CS.
  set (Q := Rsum (List.map (fun y => (y - m) * (y - m)) l)) in *.
  set (k := INR (length l)) in *.
  assert (Hd : Rsum l - k * m = m - x) by (rewrite Hn in Hsum; lra).
  rewrite Hd in CS.
  replace (n - 1) with k by lra.
  nra.
Qed.

(** With at most five cells the last cell is never outside the 2-sigma
    band of its own window. *)
Lemma small_window_inside (l : list R) (x : R) :
  let n := length (l ++ [x]) in
  let m := Rsum (l ++ [x]) / INR n in
  let v := Rsum (List.map (fun y => (y - m) * (y - m)) (l ++ [x]))
           / INR (n - 1) in
  (2 <= n <= 5)%nat ->
  outside_2sigma (Some x) (Some m) (Some (sqrt v)) = false.
Proof.
  intros n m v Hn.
  pose proof (last_cell_deviation l x) as Hdev. cbv zeta in Hdev.
  fold n in Hdev. fold m in Hdev.
  set (SS := Rsum (List.map (fun y => (y - m) * (y - m)) (l ++ [x]))) in *.
  assert (HN1 : INR (n - 1) = INR n - 1)
    by (rewrite minus_INR by lia; simpl; reflexivity).
  assert (HN2 : 2 <= INR n).
  { change 2 with (INR 2). apply le_INR. lia. }
  assert (HN5 : INR n <= 5).
  { replace 5 with (INR 5) by (simpl; lra). apply le_INR. lia. }
  set (N := INR n) in *.
  assert (HSS : 0 <= SS) by apply Rsum_sq_nonneg.
  assert (Hv : 0 <= v).
  { unfold v. rewrite HN1. apply Rmult_le_pos; [exact HSS|].
    left. apply Rinv_0_lt_compat. lra. }
  assert (HvSS : (N - 1) * v = SS).
  { unfold v. rewrite HN1. field. lra. }
  pose proof (sqrt_pos v) as Hs.
  pose proof (sqrt_sqrt v Hv) as Hss.
  set (s := sqrt v) in *.
  assert (Hin : (x - m) * (x - m) <= 4 * v).
  { assert (H1 : N * ((x - m) * (x - m)) <= (N - 1) * ((N - 1) * v))
      by (rewrite HvSS; exact Hdev).
    assert (H2 : (N - 1) * (N - 1) <= 4 * N) by nra.
    assert (H3 : (N - 1) * ((N - 1) * v) <= 4 * N * v) by nra.
    assert (H4 : N * ((x - m) * (x - m)) <= N * (4 * v)) by lra.
    apply (Rmult_le_reg_l N); [lra | exact H4]. }
  unfold outside_2sigma.
  cbn [F64.gt F64.lt F64.add F64.sub F64.mul F64.lift2].
  rewrite !Rltb_false; [reflexivity | |]; intros Hc; nra.
Qed.

End SmallWindows.

(** X5. With a window of five days or less the detector reports nothing,
    whatever the temperatures: a cell cannot be more than two sample
    deviations away from the mean of a window of at most five cells that
    contains it. *)
Theorem small_window_never_flags (data : DataFrame) (W : Z) :
  (0 <= W <= 5)%Z ->
  exists rolling_mean upper lower,
    calculate_anomalies data W = Ok ([], rolling_mean, upper, lower).
Proof.
  intros HW.
  assert (HW0 : (0 <= W)%Z) by lia.
  rewrite (@calculate_anomalies_ok data W HW0).
  set (temps := List.map temperature data).
  set (w := Z.to_nat W).
  assert (Hw5 : (w <= 5)%nat) by (unfold w; lia).
  set (r := mkRolling temps w).
  assert (Hn : length temps = length data) by apply length_map.
  assert (Hm : length (mean r) = length temps)
    by (rewrite mean_length; reflexivity).
  assert (Hs : length (std r) = length temps)
    by (rewrite std_length; reflexivity).
  eexists _, _, _. rewrite getitem_mask_none; [reflexivity|].
  intros i Hi. rewrite <- Hn in Hi.
  rewrite (mask_nth temps _ _ Hm Hs Hi).
  destruct (nth i (mean r) NaN) as [m|] eqn:Em;
    [|apply outside_2sigma_missing; left; reflexivity].
  destruct (nth i (std r) NaN) as [s|] eqn:Es;
    [|apply outside_2sigma_missing; right; reflexivity].
  destruct (@window_full temps w i m Hi Em)
    as (Hpos & Hwi & l & x & Hx & Hobs & Hlen & Hmean).
  rewrite Hx.
  rewrite std_nth in Es by exact Hi. cbn [r obj window] in Es.
  rewrite Hobs in Es. unfold roll_var in Es. rewrite Hlen in Es.
  destruct ((Nat.max w 1 <=? w) && (1 <? w))%nat eqn:E; [|discriminate].
  apply andb_true_iff in E as [_ E]. apply Nat.ltb_lt in E.
  replace ((w =? 1)%nat) with false in Es
    by (symmetry; apply Nat.eqb_neq; lia).
  pose proof (small_window_inside l x) as Hin. cbv zeta in Hin.
  rewrite Hlen in Hin. rewrite <- Hmean in Hin.
  unfold zsqrt in Es.
  rewrite <- Hmean in Es.
  destruct (F64.Rltb _ 0) eqn:Eneg in Es.
  - apply Rltb_iff in Eneg.
    exfalso. revert Eneg. apply Rle_not_lt.
    apply Rmult_le_pos; [apply Rsum_sq_nonneg|].
    left. apply Rinv_0_lt_compat. apply lt_0_INR. lia.
  - inversion Es. apply Hin. lia.
Qed.

Lemma small_window_never_flags_witness :
  (0 <= 3 <= 5)%Z /\
  exists rolling_mean upper lower,
    calculate_anomalies three_days 3 = Ok ([], rolling_mean, upper, lower).
Proof.
  assert (HW : (0 <= 3 <= 5)%Z) by lia.
  split; [exact HW|].
  apply (small_window_never_flags three_days 3 HW).
Defined.

(** ** A change of temperature scale *)

Section Rescale.
Local Open Scope R_scope.

Variables a b : R.
Hypothesis Ha : 0 < a.

Let g (x : R) : R := a * x + b.












Variables (S : Series) (w : nat).








End Rescale.



(** ** Past and future rows *)

Section Causality.








End Causality.





(** ** The seasonal table *)

Section SeasonTable.
Local Open Scope R_scope.

(** [rint] returns an integer at distance at most one half. *)
Lemma rint_close (x : R) :
  IZR (F64.rint x) - 1 / 2 <= x <= IZR (F64.rint x) + 1 / 2.
Proof.
  unfold F64.rint.
  destruct (base_Int_part x) as [Hle Hgt].
  set (n := Int_part x) in *.
  destruct (Rlt_dec (x - IZR n) (1 / 2)) as [H1|H1].
  - lra.
  - destruct (Rlt_dec (1 / 2) (x - IZR n)) as [H2|H2].
    + rewrite plus_IZR. lra.
    + destruct (Z.even n); [lra | rewrite plus_IZR; lra].
Qed.


Lemma pow10_2 : 10 ^ 2 = 100.
Proof. simpl. lra. Qed.

(** Rounding to two decimals moves a value by at most 0.005. *)
Lemma round2_close (x y : R) :
  F64.round 2 (Some x) = Some y -> - (5 / 1000) <= y - x <= 5 / 1000.
Proof.
  unfold F64.round. rewrite pow10_2. intros H. inversion H as [Hy].
  pose proof (rint_close (x * 100)) as Hc.
  set (z := IZR (F64.rint (x * 100))) in *.
  lra.
Qed.



(** Looking a key up in a table built group by group. *)
Lemma loc_map_groups {G V} (F : G -> V) (groups : list (string * G))
      (k : string) :
  loc (List.map (fun g => (fst g, F (snd g))) groups) k
  = match loc groups k with
    | Ok rows => Ok (F rows)
    | Raise e => Raise e
    end.
Proof.
  induction groups as [|[k' g] groups IH]; simpl; [reflexivity|].
  destruct (String.eqb k' k); [reflexivity | exact IH].
Qed.

Lemma loc_map_keys {V} (F : string -> V) (keys : list string) (k : string) :
  In k keys -> loc (List.map (fun x => (x, F x)) keys) k = Ok (F k).
Proof.
  induction keys as [|x keys IH]; simpl; intros H; [contradiction|].
  destruct (String.eqb_spec x k) as [->|Hne]; [reflexivity|].
  apply IH. destruct H; [congruence | assumption].
Qed.

(** The group of a key that occurs: the rows that carry it. *)
Lemma loc_groupby {A} (key : A -> string) (rows : list A) (k : string) :
  In k (List.map key rows) ->
  loc (groupby key rows) k
  = Ok (filter (fun r => String.eqb (key r) k) rows).
Proof.
  intros H. unfold groupby.
  apply (loc_map_keys (fun k => filter (fun r => String.eqb (key r) k) rows)).
  apply group_keys_in. exact H.
Qed.

Lemma stats_loc (city_data : DataFrame) (s : string) :
  In s (List.map season city_data) ->
  loc (stats city_data) s
  = Ok (round_stats 2
          (agg_all (List.map temperature
                      (filter (fun r => String.eqb (season r) s)
                              city_data)))).
Proof.
  intros H. unfold stats.
  rewrite (loc_map_groups
             (fun rows => round_stats 2 (agg_all (List.map temperature rows)))).
  rewrite (loc_groupby season city_data s H). reflexivity.
Qed.

Lemma seasonal_stats_loc (city_data : DataFrame) (s : string) :
  In s (List.map season city_data) ->
  loc (seasonal_stats city_data) s
  = Ok (agg_mean (List.map temperature
                    (filter (fun r => String.eqb (season r) s) city_data)),
        agg_std (List.map temperature
                   (filter (fun r => String.eqb (season r) s) city_data))).
Proof.
  intros H. unfold seasonal_stats.
  rewrite (loc_map_groups
             (fun rows => (agg_mean (List.map temperature rows),
                           agg_std (List.map temperature rows)))).
  rewrite (loc_groupby season city_data s H). reflexivity.
Qed.

Lemma loc_present_key {V} (table : list (string * V)) (k : string) (v : V) :
  loc table k = Ok v -> In k (List.map fst table).
Proof.
  induction table as [|[k' v'] table IH]; simpl; intros H; [discriminate|].
  destruct (String.eqb_spec k' k) as [->|Hne]; [left; reflexivity|].
  right. apply IH. exact H.
Qed.

Lemma seasonal_stats_keys (city_data : DataFrame) :
  List.map fst (seasonal_stats city_data)
  = group_keys (List.map season city_data).
Proof.
  unfold seasonal_stats, groupby. rewrite !List.map_map. simpl.
  apply List.map_id.
Qed.

End SeasonTable.

(** X9. Rounding the table to two decimals moves each threshold by at
    most 0.015, so the verdict of the page is the verdict of the
    statistics that were not rounded for every reading that is further
    than 0.015 from both thresholds [mean +- 2 std] of the season. *)
Theorem rounded_verdict_away_from_thresholds (city_data : DataFrame)
        (s : string) (current_temp m d : R) :
  loc (seasonal_stats city_data) s = Ok (Some m, Some d) ->
  (Rabs (current_temp - (m + 2 * d)) > 15 / 1000)%R ->
  (Rabs (current_temp - (m - 2 * d)) > 15 / 1000)%R ->
  classify_reading (stats city_data) current_temp s
  = Ok (outside_2sigma (Some current_temp) (Some m) (Some d)).
Proof.
  intros Hraw Hup Hlo.
  assert (Hin : In s (List.map season city_data)).
  { rewrite <- group_keys_in, <- seasonal_stats_keys.
    apply (loc_present_key _ _ _ Hraw). }
  rewrite (seasonal_stats_loc city_data s Hin) in Hraw.
  inversion Hraw as [[Hm Hd]].
  unfold classify_reading. rewrite (stats_loc city_data s Hin).
  cbn [Py.bind]. unfold round_stats, agg_all. cbn [st_mean st_std].
  rewrite Hm, Hd.
  destruct (F64.round 2 (Some m)) as [m'|] eqn:Em; [|discriminate Em].
  destruct (F64.round 2 (Some d)) as [d'|] eqn:Ed; [|discriminate Ed].
  pose proof (round2_close m m' Em) as Cm.
  pose proof (round2_close d d' Ed) as Cd.
  f_equal. unfold outside_2sigma.
  cbn [F64.gt F64.lt F64.add F64.sub F64.mul F64.lift2].
  unfold Rabs in Hup, Hlo.
  destruct (Rcase_abs _) in Hup; destruct (Rcase_abs _) in Hlo;
    repeat match goal with
           | |- context [F64.Rltb ?x ?y] =>
               first [ rewrite (@Rltb_true x y) by lra
                     | rewrite (@Rltb_false x y) by lra ]
           end; reflexivity.
Qed.

Lemma rounded_verdict_away_from_thresholds_witness :
  loc (seasonal_stats winter_days) "winter"
    = Ok (Some (10126 / 1000)%R, Some (126 / 1000)%R) /\
  (Rabs (11 - (10126 / 1000 + 2 * (126 / 1000))) > 15 / 1000)%R /\
  (Rabs (11 - (10126 / 1000 - 2 * (126 / 1000))) > 15 / 1000)%R /\
  classify_reading (stats winter_days) 11 "winter"
  = Ok (outside_2sigma (Some 11%R) (Some (10126 / 1000)%R)
                       (Some (126 / 1000)%R)).
Proof.
  assert (H1 : loc (seasonal_stats winter_days) "winter"
               = Ok (Some (10126 / 1000)%R, Some (126 / 1000)%R)).
  { unfold seasonal_stats. rewrite winter_groups.
    cbn [List.map fst snd]. unfold loc. rewrite String.eqb_refl.
    rewrite winter_mean, winter_std. reflexivity. }
  assert (H2 : (Rabs (11 - (10126 / 1000 + 2 * (126 / 1000)))
                > 15 / 1000)%R).
  { rewrite Rabs_right; lra. }
  assert (H3 : (Rabs (11 - (10126 / 1000 - 2 * (126 / 1000)))
                > 15 / 1000)%R).
  { rewrite Rabs_right; lra. }
  split; [exact H1|]. split; [exact H2|]. split; [exact H3|].
  apply (rounded_verdict_away_from_thresholds winter_days "winter" 11
           (10126 / 1000) (126 / 1000) H1 H2 H3).
Defined.

Section TableOrder.
Local Open Scope R_scope.








(** String order. *)
Lemma ltb_of_leb_neq (x y : string) :
  String.leb x y = true -> x <> y -> String.ltb x y = true.
Proof.
  unfold String.leb, String.ltb. intros H Hne.
  destruct (String.compare x y) eqn:E; try reflexivity; try discriminate.
  apply String.compare_eq_iff in E. contradiction.
Qed.

Lemma ltb_of_not_leb (x y : string) :
  String.leb x y = false -> String.ltb y x = true.
Proof.
  unfold String.leb, String.ltb. intros H.
  rewrite String.compare_antisym.
  destruct (String.compare x y); try discriminate. reflexivity.
Qed.

Lemma ascending_cons (x : string) (l : list string) :
  ascending (x :: l)
  <-> match l with [] => True | y :: _ => String.ltb x y = true end
      /\ ascending l.
Proof.
  destruct l as [|y l]; simpl; tauto.
Qed.

Lemma insert_sorted_head (x k : string) (l : list string) :
  String.ltb x k = true ->
  match l with [] => True | y :: _ => String.ltb x y = true end ->
  match insert_sorted k l with
  | [] => True
  | y :: _ => String.ltb x y = true
  end.
Proof.
  intros Hk Hl. destruct l as [|y l]; simpl; [exact Hk|].
  destruct (String.leb k y); [exact Hk | exact Hl].
Qed.

Lemma insert_sorted_ascending (k : string) (l : list string) :
  ascending l -> ~ In k l -> ascending (insert_sorted k l).
Proof.
  induction l as [|x l IH]; intros Hasc Hnin.
  - simpl. exact I.
  - cbn [insert_sorted].
    destruct (String.leb k x) eqn:E.
    + apply ascending_cons. split; [|exact Hasc].
      apply ltb_of_leb_neq; [exact E|].
      intros ->. apply Hnin. left. reflexivity.
    + apply ascending_cons in Hasc. destruct Hasc as [Hhd Hasc].
      apply ascending_cons. split.
      * apply insert_sorted_head; [apply ltb_of_not_leb; exact E | exact Hhd].
      * apply IH; [exact Hasc|]. intros H. apply Hnin. right. exact H.
Qed.

Lemma group_keys_ascending (l : list string) : ascending (group_keys l).
Proof.
  unfold group_keys, sort_keys.
  pose proof (NoDup_nodup string_dec l) as Hnd.
  induction (nodup string_dec l) as [|x xs IH]; [exact I|].
  cbn [fold_right]. inversion Hnd as [|? ? Hx Hxs]; subst.
  apply insert_sorted_ascending; [apply IH; exact Hxs|].
  intros H.
  assert (Hin : forall y ys, In y (fold_right insert_sorted [] ys) -> In y ys).
  { clear. intros y ys. induction ys as [|z ys IH]; simpl; [tauto|].
    rewrite insert_sorted_in. intros [->|H]; [left; reflexivity|].
    right. apply IH. exact H. }
  apply Hx. apply Hin. exact H.
Qed.

End TableOrder.

(** X10. The table shown to the user has one row for each season that
    occurs in the rows of the city and no other row, and its rows stand in
    strictly ascending order of the season name. *)
Theorem stats_rows_are_seasons (city_data : DataFrame) :
  ascending (List.map fst (stats city_data)) /\
  forall s, In s (List.map fst (stats city_data))
            <-> In s (List.map season city_data).
Proof.
  rewrite stats_keys. split.
  - apply group_keys_ascending.
  - intros s. apply group_keys_in.
Qed.



(** ** The live reading and the analysis of all cities *)



(** X13. When the rows of the city cover the four seasons, the service
    answered with a temperature and the answer is not the 401 error, the
    live section shows the reading with a verdict in every month of the
    year: the verdict of the month's season, and never an error
    message. *)
Theorem live_reading_shown (city_data : DataFrame) (w : Weather)
        (current_temp : R) (current_month : Z) :
  (1 <= current_month <= 12)%Z ->
  (forall s, In s ["winter"; "spring"; "summer"; "autumn"]%string ->
             In s (List.map season city_data)) ->
  cod_is_401 w = false ->
  main_temp w = Some current_temp ->
  exists s is_anomaly,
    current_season current_month = Ok s /\
    classify_reading (stats city_data) current_temp s = Ok is_anomaly /\
    live_section (stats city_data) (Some w) current_month
    = Ok (ShowReading current_temp is_anomaly).
Proof.
  intros Hmonth Hall Hcod Htemp.
  assert (Hs : exists s, current_season current_month = Ok s /\
                         In s ["winter"; "spring"; "summer"; "autumn"]%string).
  { assert (Hcases : (current_month = 1 \/ current_month = 2 \/
                      current_month = 3 \/ current_month = 4 \/
                      current_month = 5 \/ current_month = 6 \/
                      current_month = 7 \/ current_month = 8 \/
                      current_month = 9 \/ current_month = 10 \/
                      current_month = 11 \/ current_month = 12)%Z) by lia.
    repeat (destruct Hcases as [->|Hcases];
            [eexists; split; [reflexivity | simpl; tauto]|]).
    subst. eexists; split; [reflexivity | simpl; tauto]. }
  destruct Hs as [s [Hseason Hfour]].
  assert (Hin : In s (List.map season city_data)) by (apply Hall; exact Hfour).
  exists s. eexists.
  split; [exact Hseason|].
  assert (Hc : classify_reading (stats city_data) current_temp s
               = Ok (outside_2sigma (Some current_temp)
                       (st_mean (round_stats 2 (agg_all (List.map temperature
                          (filter (fun r => String.eqb (season r) s)
                                  city_data)))))
                       (st_std (round_stats 2 (agg_all (List.map temperature
                          (filter (fun r => String.eqb (season r) s)
                                  city_data))))))).
  { unfold classify_reading. rewrite (stats_loc city_data s Hin).
    reflexivity. }
  split; [exact Hc|].
  unfold live_section, live_block.
  rewrite Hcod, Htemp, Hseason. cbn [Py.bind]. rewrite Hc. reflexivity.
Qed.

Lemma live_reading_shown_witness :
  (1 <= 7 <= 12)%Z /\
  (forall s, In s ["winter"; "spring"; "summer"; "autumn"]%string ->
             In s (List.map season four_seasons)) /\
  cod_is_401 warm_answer = false /\
  main_temp warm_answer = Some 25%R /\
  exists s is_anomaly,
    current_season 7 = Ok s /\
    classify_reading (stats four_seasons) 25 s = Ok is_anomaly /\
    live_section (stats four_seasons) (Some warm_answer) 7
    = Ok (ShowReading 25 is_anomaly).
Proof.
  assert (H1 : (1 <= 7 <= 12)%Z) by lia.
  assert (H2 : forall s, In s ["winter"; "spring"; "summer"; "autumn"]%string ->
                         In s (List.map season four_seasons)).
  { intros s H. simpl in H. simpl. tauto. }
  split; [exact H1|]. split; [exact H2|].
  split; [reflexivity|]. split; [reflexivity|].
  apply (live_reading_shown four_seasons warm_answer 25 7 H1 H2
           eq_refl eq_refl).
Defined.

Section Batch.

Lemma getitem_mask_filter {A} (p : A -> bool) (l : list A) :
  getitem_mask l (List.map p l) = filter p l.
Proof.
  induction l as [|x l IH]; simpl; [reflexivity|].
  rewrite IH. reflexivity.
Qed.

Lemma select_city_group (data : DataFrame) (c : string) :
  select_city data c = filter (fun r => String.eqb (city r) c) data.
Proof. apply getitem_mask_filter. Qed.



End Batch.



(** ** Groups and ranges *)

Section Partition.
Context {A : Type}.
Variable key : A -> string.

Let group_of (rows : list A) (k : string) : list A :=
  filter (fun r => String.eqb (key r) k) rows.

Lemma flat_map_group_cons (x : A) (rows : list A) (keys : list string) :
  NoDup keys -> In (key x) keys ->
  Permutation (flat_map (group_of (x :: rows)) keys)
              (x :: flat_map (group_of rows) keys).
Proof.
  induction keys as [|k keys IH]; intros Hnd Hin; [destruct Hin|].
  inversion Hnd as [|? ? Hk Hks]; subst.
  cbn [flat_map]. unfold group_of at 1. cbn [filter].
  destruct (String.eqb_spec (key x) k) as [E|E].
  - fold (group_of rows k). cbn [app]. apply perm_skip.
    apply Permutation_app_head.
    assert (Hext : forall keys', ~ In (key x) keys' ->
              flat_map (group_of (x :: rows)) keys'
              = flat_map (group_of rows) keys').
    { clear. intros keys' Hn. induction keys' as [|k' keys' IH];
        [reflexivity|].
      cbn [flat_map]. rewrite IH by (intros H; apply Hn; right; exact H).
      f_equal. unfold group_of. cbn [filter].
      destruct (String.eqb_spec (key x) k') as [E|E]; [|reflexivity].
      exfalso. apply Hn. left. symmetry. exact E. }
    rewrite Hext by (rewrite E; exact Hk). apply Permutation_refl.
  - fold (group_of rows k).
    assert (Hin' : In (key x) keys)
      by (destruct Hin as [H|H]; [congruence | exact H]).
    apply (Permutation_trans
             (Permutation_app_head _ (IH Hks Hin'))).
    apply Permutation_sym, Permutation_middle.
Qed.

Lemma flat_map_groups (rows : list A) (keys : list string) :
  NoDup keys -> (forall r, In r rows -> In (key r) keys) ->
  Permutation (flat_map (group_of rows) keys) rows.
Proof.
  intros Hnd. induction rows as [|x rows IH]; intros Hcover.
  - assert (E : flat_map (group_of []) keys = []).
    { clear. induction keys as [|k keys IH]; [reflexivity|].
      cbn [flat_map]. rewrite IH. reflexivity. }
    rewrite E. apply perm_nil.
  - apply (Permutation_trans
             (flat_map_group_cons x rows keys Hnd
                (Hcover x (or_introl eq_refl)))).
    apply perm_skip. apply IH. intros r Hr. apply Hcover. right. exact Hr.
Qed.

Lemma insert_sorted_nodup (k : string) (l : list string) :
  NoDup l -> ~ In k l -> NoDup (insert_sorted k l).
Proof.
  induction l as [|x l IH]; intros Hnd Hn; simpl.
  - constructor; [tauto | constructor].
  - destruct (String.leb k x).
    + constructor; assumption.
    + inversion Hnd as [|? ? Hx Hl]; subst. constructor.
      * rewrite insert_sorted_in. intros [->|H]; [|contradiction].
        apply Hn. left. reflexivity.
      * apply IH; [exact Hl|]. intros H. apply Hn. right. exact H.
Qed.

Lemma group_keys_nodup (l : list string) : NoDup (group_keys l).
Proof.
  unfold group_keys, sort_keys.
  pose proof (NoDup_nodup string_dec l) as Hnd.
  induction (nodup string_dec l) as [|x xs IH]; [constructor|].
  cbn [fold_right]. inversion Hnd as [|? ? Hx Hxs]; subst.
  apply insert_sorted_nodup; [apply IH; exact Hxs|].
  intros H. apply Hx.
  clear - H. induction xs as [|z xs IH]; simpl in *; [exact H|].
  apply insert_sorted_in in H. destruct H as [->|H]; [left; reflexivity|].
  right. apply IH. exact H.
Qed.

Lemma concat_groupby (rows : list A) :
  concat (List.map snd (groupby key rows))
  = flat_map (group_of rows) (group_keys (List.map key rows)).
Proof.
  unfold groupby. rewrite List.map_map. cbn [snd].
  rewrite flat_map_concat_map. reflexivity.
Qed.

End Partition.

(** X15. The per-city tables of the batch partition the table: put end to
    end they are a rearrangement of its rows (no row is lost or analysed
    twice), every one of them is non-empty, holds rows of its own city
    only, and keeps these rows in the order of the table. *)
Theorem city_groups_partition (data : DataFrame) :
  Permutation (concat (List.map snd (groupby city data))) data /\
  forall c rows, In (c, rows) (groupby city data) ->
    rows <> [] /\
    (forall r, In r rows -> city r = c) /\
    rows = select_city data c.
Proof.
  split.
  - rewrite concat_groupby. apply flat_map_groups.
    + apply group_keys_nodup.
    + intros r Hr. apply group_keys_in. apply in_map. exact Hr.
  - intros c rows Hin. unfold groupby in Hin.
    apply in_map_iff in Hin. destruct Hin as [k [Hk Hkin]].
    inversion Hk; subst c rows. clear Hk.
    rewrite group_keys_in in Hkin. apply in_map_iff in Hkin.
    destruct Hkin as [r [Hr Hrin]].
    split; [|split].
    + intros E.
      assert (Hrf : In r (filter (fun r0 => String.eqb (city r0) k) data)).
      { apply filter_In. split; [exact Hrin|].
        rewrite Hr. apply String.eqb_refl. }
      rewrite E in Hrf. destruct Hrf.
    + intros r0 Hr0. apply filter_In in Hr0. destruct Hr0 as [_ E].
      apply String.eqb_eq. exact E.
    + symmetry. apply select_city_group.
Qed.



